(** * ChessBrain: the session / move-reconciliation engine of backendrunner.py

    A shallow embedding of [ChessBrain] (src/backendrunner.py) and the
    properties of its snapshot parser, move inferencer and controller.

    Conventions of the embedding.
    - A Python [str] is a Rocq [string]; a character is read as a code point
      below 256.  [strip], [split] and [lower] follow CPython on that range.
    - A Python [set] of square names is a [gset string]; a [dict] with the
      two keys "white" and "black" is the record [Snapshot].
    - The rules library (python-chess) and the engine (Stockfish) are
      external: inside [Section Brain] they are variables.  [Module Chess]
      gives one implementation of the rules interface, used to run the
      controller on concrete games.
    - A Python exception is the outcome [Raised]; [None] is [None].
    - [print] and the thread that logs "Game Over" after eight seconds touch
      neither the session nor the returned text and are left out. *)

From Stdlib Require Import ZArith Ascii String.
From stdpp Require Import base decidable option list sorting gmap strings pretty.

Local Open Scope string_scope.

(** ** Python string primitives *)

Module Py.

(** [c.isspace()] for a code point below 256. *)
Definition isspace (c : ascii) : bool :=
  let n := N_of_ascii c in
  ((9 <=? n) && (n <=? 13) || (28 <=? n) && (n <=? 32)
   || (n =? 133) || (n =? 160))%N.

Fixpoint lstrip (s : string) : string :=
  match s with
  | String c s' => if isspace c then lstrip s' else s
  | EmptyString => EmptyString
  end.

Fixpoint rstrip (s : string) : string :=
  match s with
  | EmptyString => EmptyString
  | String c s' =>
      match rstrip s' with
      | EmptyString => if isspace c then EmptyString else String c EmptyString
      | r => String c r
      end
  end.

(** [s.strip()] *)
Definition strip (s : string) : string := rstrip (lstrip s).

Definition lower_char (c : ascii) : ascii :=
  let n := N_of_ascii c in
  if ((65 <=? n) && (n <=? 90)
      || (192 <=? n) && (n <=? 222) && negb (n =? 215))%N
  then ascii_of_N (n + 32) else c.

(** [s.lower()] *)
Fixpoint lower (s : string) : string :=
  match s with
  | EmptyString => EmptyString
  | String c s' => String (lower_char c) (lower s')
  end.

(** [sep in s] for a one-character [sep]. *)
Fixpoint contains (sep : ascii) (s : string) : bool :=
  match s with
  | EmptyString => false
  | String c s' => if decide (c = sep) then true else contains sep s'
  end.

(** [s.split(sep)] for a one-character [sep]: empty fields are kept. *)
Fixpoint split (sep : ascii) (s : string) : list string :=
  match s with
  | EmptyString => [EmptyString]
  | String c s' =>
      if decide (c = sep) then EmptyString :: split sep s'
      else match split sep s' with
           | h :: t => String c h :: t
           | [] => [String c EmptyString]
           end
  end.

(** [s.split()]: fields separated by runs of whitespace, none empty. *)
Fixpoint split_ws (s : string) : list string :=
  match s with
  | EmptyString => []
  | String c s' =>
      if isspace c then split_ws s'
      else match s' with
           | EmptyString => [String c EmptyString]
           | String c' _ =>
               if isspace c' then String c EmptyString :: split_ws s'
               else match split_ws s' with
                    | h :: t => String c h :: t
                    | [] => [String c EmptyString]
                    end
           end
  end.

(** [s.startswith(p)] *)
Definition startswith (p s : string) : bool := String.prefix p s.

(** [sorted(l)] on strings: ascending in the code-point order. *)
Definition sorted (l : list string) : list string := merge_sort String.le l.

(** [c in s] for a character [c]. *)
Definition char_in (c : ascii) (s : string) : bool := contains c s.

End Py.

(** ** Occupancy snapshots and the snapshot parser *)

(** The dict [{"white": [...], "black": [...]}]. *)
Record Snapshot := mkSnapshot { white : list string; black : list string }.

Global Instance Snapshot_eq_dec : EqDecision Snapshot.
Proof. solve_decision. Defined.

(** [{f"{file}{rank}" for file in 'abcdefgh' for rank in '12345678'}] *)
Definition valid_squares : gset string :=
  list_to_set
    (file ← list_ascii_of_string "abcdefgh";
     rank ← list_ascii_of_string "12345678";
     [String file (String rank EmptyString)]).

(** [[sq.strip() for sq in squares_str.split(",") if sq.strip()]] *)
Definition squares_of (squares_str : string) : list string :=
  Py.strip <$> filter (λ sq, Py.strip sq ≠ EmptyString) (Py.split "," squares_str).

(** One iteration of the [for part in parts] loop.  [None] stands for the
    [IndexError] of [part.split(":")[1]]. *)
Definition parse_part (acc : list string * list string) (part : string)
  : option (list string * list string) :=
  let part := Py.strip part in
  if Py.startswith "white:" part then
    squares_str ← Py.split ":" part !! 1%nat;
    Some (squares_of squares_str, acc.2)
  else if Py.startswith "black:" part then
    squares_str ← Py.split ":" part !! 1%nat;
    Some (acc.1, squares_of squares_str)
  else Some acc.

Fixpoint parse_parts (parts : list string) (acc : list string * list string)
  : option (list string * list string) :=
  match parts with
  | [] => Some acc
  | part :: rest => acc' ← parse_part acc part; parse_parts rest acc'
  end.

(** The parts the loop runs over. *)
Definition parts_of (txt : string) : list string :=
  if Py.contains ";" txt then Py.split ";" txt else Py.split_ws txt.

(** [ChessBrain._parse_positions]; [None] is the [except: return None]. *)
Definition _parse_positions (txt : string) : option Snapshot :=
  let txt := Py.lower (Py.strip txt) in
  '(white_squares, black_squares) ← parse_parts (parts_of txt) ([], []);
  let white_squares := filter (λ sq, sq ∈ valid_squares) white_squares in
  let black_squares := filter (λ sq, sq ∈ valid_squares) black_squares in
  Some (mkSnapshot (Py.sorted white_squares) (Py.sorted black_squares)).

(** ** The move inferencer *)

(** [list(X)[0]], used by the source only where [len(X) == 1] has been
    tested; on an empty set (never reached) the result is the empty text. *)
Definition set_first (X : gset string) : string := default EmptyString (head (elements X)).

(** [ChessBrain._is_drastic_change] *)
Definition _is_drastic_change (new_pos : Snapshot) (current_pos : option Snapshot) : bool :=
  match current_pos with
  | None => false
  | Some current_pos =>
      let current_white : gset string := list_to_set (white current_pos) in
      let current_black : gset string := list_to_set (black current_pos) in
      let new_white : gset string := list_to_set (white new_pos) in
      let new_black : gset string := list_to_set (black new_pos) in
      let white_removed := current_white ∖ new_white in
      let white_added := new_white ∖ current_white in
      let black_removed := current_black ∖ new_black in
      let black_added := new_black ∖ current_black in
      let total_removed := (size white_removed + size black_removed)%nat in
      let total_added := (size white_added + size black_added)%nat in
      if bool_decide (total_removed = 1%nat) && bool_decide (total_added = 2%nat) then true
      else
        let current_count := (length (white current_pos) + length (black current_pos))%nat in
        let new_count := (length (white new_pos) + length (black new_pos))%nat in
        let diff := Z.abs (Z.of_nat current_count - Z.of_nat new_count) in
        bool_decide (diff > 2)%Z
  end.

(** [ChessBrain._deduce_move_from_snapshot] *)
Definition _deduce_move_from_snapshot (new_pos current_pos : Snapshot) : option string :=
  let current_white : gset string := list_to_set (white current_pos) in
  let current_black : gset string := list_to_set (black current_pos) in
  let new_white : gset string := list_to_set (white new_pos) in
  let new_black : gset string := list_to_set (black new_pos) in
  let white_removed := current_white ∖ new_white in
  let white_added := new_white ∖ current_white in
  let black_removed := current_black ∖ new_black in
  let black_added := new_black ∖ current_black in
  (* castling detection *)
  if bool_decide (white_removed = {["e1"; "h1"]}) && bool_decide (white_added = {["g1"; "f1"]})
  then Some "e1g1"
  else if bool_decide (white_removed = {["e1"; "a1"]}) && bool_decide (white_added = {["c1"; "d1"]})
  then Some "e1c1"
  else if bool_decide (black_removed = {["e8"; "h8"]}) && bool_decide (black_added = {["g8"; "f8"]})
  then Some "e8g8"
  else if bool_decide (black_removed = {["e8"; "a8"]}) && bool_decide (black_added = {["c8"; "d8"]})
  then Some "e8c8"
  (* normal move *)
  else if bool_decide (size white_removed = 1%nat) && bool_decide (size white_added = 1%nat)
          && bool_decide (black_removed = ∅) && bool_decide (black_added = ∅)
  then Some (set_first white_removed ++ set_first white_added)
  else if bool_decide (size black_removed = 1%nat) && bool_decide (size black_added = 1%nat)
          && bool_decide (white_removed = ∅) && bool_decide (white_added = ∅)
  then Some (set_first black_removed ++ set_first black_added)
  (* capture *)
  else if bool_decide (size white_removed = 1%nat) && bool_decide (size white_added = 1%nat)
          && bool_decide (size black_removed = 1%nat) && bool_decide (black_added = ∅)
          && bool_decide (set_first white_added ∈ black_removed)
  then Some (set_first white_removed ++ set_first white_added)
  else if bool_decide (size black_removed = 1%nat) && bool_decide (size black_added = 1%nat)
          && bool_decide (size white_removed = 1%nat) && bool_decide (white_added = ∅)
          && bool_decide (set_first black_added ∈ white_removed)
  then Some (set_first black_removed ++ set_first black_added)
  else None.

(** ** The session and the controller *)

(** [chess.WHITE] and [chess.BLACK]. *)
Inductive Color := WHITE | BLACK.

Global Instance Color_eq_dec : EqDecision Color.
Proof. solve_decision. Defined.

(** What a call gives back: the returned value, or an exception that leaves
    the method. *)
Inductive outcome (A : Type) := Return (a : A) | Raised.
Arguments Return {A} a.
Arguments Raised {A}.

(** [chess.square_name]: squares are numbered 0 (a1) to 63 (h8), file
    first. *)
Definition square_name (square : nat) : string :=
  match String.get (square `mod` 8) "abcdefgh", String.get (square `div` 8) "12345678" with
  | Some file, Some rank => String file (String rank EmptyString)
  | _, _ => EmptyString
  end.

(** [len(text) == n and text[0] in 'abcdefgh' and ...]: the test of one
    character of [text] against a set of characters. *)
Definition char_at_in (text : string) (i : nat) (chars : string) : bool :=
  match String.get i text with
  | Some c => Py.char_in c chars
  | None => false
  end.

(** [ChessBrain._is_uci_move] *)
Definition _is_uci_move (text : string) : bool :=
  let text := Py.lower (Py.strip text) in
  if bool_decide (String.length text = 4%nat)
     && char_at_in text 0 "abcdefgh" && char_at_in text 1 "12345678"
     && char_at_in text 2 "abcdefgh" && char_at_in text 3 "12345678"
  then true
  else if bool_decide (String.length text = 5%nat)
     && char_at_in text 0 "abcdefgh" && char_at_in text 1 "12345678"
     && char_at_in text 2 "abcdefgh" && char_at_in text 3 "12345678"
     && char_at_in text 4 "qnrb"
  then true
  else false.

Section Brain.

(** The rules capability ([chess.Board], [chess.Move]). *)
Context {Board Move : Type}.
(** the position [board.reset()] installs *)
Variable initial_board : Board.
(** [chess.Move.from_uci]; [None] when it raises *)
Variable from_uci : string → option Move.
(** [move in board.legal_moves] *)
Variable is_legal : Board → Move → bool.
(** [board.push(move)] *)
Variable push : Board → Move → Board.
(** [board.is_checkmate()] *)
Variable is_checkmate : Board → bool.
(** the colour of the piece on a square, if any ([board.piece_at(sq).color]) *)
Variable color_at : Board → nat → option Color.
(** [board.fen()] *)
Variable fen : Board → string.

(** The engine capability: the answer of [get_best_move_time(2000)] once
    the position has been set from a FEN text. *)
Variable get_best_move_time : string → option string.

(** The fields of a [ChessBrain] object. *)
Record ChessBrain := mkBrain {
  board : Board;
  app_color : option Color;
  game_active : bool;
  last_position_snapshot : option Snapshot;
  first_move_received : bool
}.

Definition set_board (self : ChessBrain) (b : Board) : ChessBrain :=
  mkBrain b (app_color self) (game_active self) (last_position_snapshot self)
          (first_move_received self).
Definition set_game_active (self : ChessBrain) (a : bool) : ChessBrain :=
  mkBrain (board self) (app_color self) a (last_position_snapshot self)
          (first_move_received self).
Definition set_last_position_snapshot (self : ChessBrain) (s : option Snapshot) : ChessBrain :=
  mkBrain (board self) (app_color self) (game_active self) s
          (first_move_received self).

(** [board.piece_map().items()]: the occupied squares with the colour of
    their piece, one entry per square, from h8 down to a1. *)
Definition piece_map (b : Board) : list (nat * Color) :=
  omap (λ square, (λ c, (square, c)) <$> color_at b square) (reverse (seq 0 64)).

(** The loop of [_get_piece_snapshot] over the items of the piece map. *)
Fixpoint snapshot_loop (items : list (nat * Color)) (w b : list string)
  : list string * list string :=
  match items with
  | [] => (w, b)
  | (square, color) :: rest =>
      let square_name := square_name square in
      if decide (color = WHITE) then snapshot_loop rest (w ++ [square_name]) b
      else snapshot_loop rest w (b ++ [square_name])
  end.

(** [ChessBrain._get_piece_snapshot] *)
Definition _get_piece_snapshot (self : ChessBrain) : Snapshot :=
  let '(w, b) := snapshot_loop (piece_map (board self)) [] [] in
  mkSnapshot (Py.sorted w) (Py.sorted b).

(** [ChessBrain._get_best_move]: the new session with the returned value
    ([None] or the engine's move text); [Raised] when [from_uci] rejects
    the engine's text. *)
Definition _get_best_move (self : ChessBrain) : ChessBrain * outcome (option string) :=
  match get_best_move_time (fen (board self)) with
  | Some best_move =>
      if decide (best_move = EmptyString) then (self, Return None)
      else
        match from_uci best_move with
        | None => (self, Raised)
        | Some move =>
            if is_legal (board self) move then
              let self := set_board self (push (board self) move) in
              let self := if is_checkmate (board self)
                          then set_game_active self false else self in
              (self, Return (Some best_move))
            else (self, Return None)
        end
  | None => (self, Return None)
  end.

(** [ai_move if ai_move else ""] *)
Definition or_empty (ai_move : option string) : string := default EmptyString ai_move.

(** The code shared by both paths of [process_move] once a legal move has
    been pushed: the checkmate test and the engine's reply.  On the fast
    path ([guarded]) it runs inside [try: ... except: return "Invalid"]. *)
Definition after_push (guarded : bool) (self : ChessBrain) : ChessBrain * outcome string :=
  if is_checkmate (board self) then (set_game_active self false, Return EmptyString)
  else
    match _get_best_move self with
    | (self, Return ai_move) => (self, Return (or_empty ai_move))
    | (self, Raised) => (self, if guarded then Return "Invalid" else Raised)
    end.

(** [self.board.push(move)] followed by
    [self.last_position_snapshot = self._get_piece_snapshot()]. *)
Definition push_and_record (self : ChessBrain) (move : Move) : ChessBrain :=
  let self := set_board self (push (board self) move) in
  set_last_position_snapshot self (Some (_get_piece_snapshot self)).

(** [ChessBrain.process_move] *)
Definition process_move (self : ChessBrain) (incoming : string) : ChessBrain * outcome string :=
  if negb (game_active self) then (self, Return "Game Over")
  else if _is_uci_move incoming then
    match from_uci (Py.lower (Py.strip incoming)) with
    | None => (self, Return "Invalid")
    | Some move =>
        if is_legal (board self) move then
          let self := push_and_record self move in
          after_push true self
        else (self, Return "Invalid")
    end
  else
    match _parse_positions incoming with
    | None => (self, Return EmptyString)
    | Some positions =>
        let current_board_snapshot := _get_piece_snapshot self in
        if decide (positions = current_board_snapshot) then (self, Return EmptyString)
        else if _is_drastic_change positions (Some current_board_snapshot)
        then (self, Return EmptyString)
        else
          match _deduce_move_from_snapshot positions current_board_snapshot with
          | None => (self, Return EmptyString)
          | Some move =>
              if decide (move = EmptyString) then (self, Return EmptyString)
              else
                match from_uci move with
                | None => (self, Return EmptyString)
                | Some move_obj =>
                    if is_legal (board self) move_obj then
                      let self := push_and_record self move_obj in
                      after_push false self
                    else (self, Return EmptyString)
                end
          end
    end.

(** [ChessBrain.start_game] *)
Definition start_game (self : ChessBrain) (color : string) : ChessBrain * outcome string :=
  let color := Py.lower (Py.strip color) in
  if negb (bool_decide (color ∈ ["white"; "black"])) then (self, Return "Invalid")
  else
    let app_color := if decide (color = "white") then WHITE else BLACK in
    let self := mkBrain initial_board (Some app_color) true
                        (last_position_snapshot self) false in
    let self := set_last_position_snapshot self (Some (_get_piece_snapshot self)) in
    if decide (app_color = WHITE) then
      match _get_best_move self with
      | (self, Return move) => (self, Return (default "Game Over" move))
      | (self, Raised) => (self, Raised)
      end
    else (self, Return EmptyString).

(** Successive [/move] requests: each input is given to [process_move]
    in the session the previous one left; an exception ends the request,
    not the server. *)
Fixpoint submit_all (self : ChessBrain) (inputs : list string)
  : ChessBrain * list (outcome string) :=
  match inputs with
  | [] => (self, [])
  | incoming :: rest =>
      let '(self, r) := process_move self incoming in
      let '(self, rs) := submit_all self rest in
      (self, r :: rs)
  end.

(** [ChessBrain.__init__] (the engine handle apart). *)
Definition new_brain : ChessBrain := mkBrain initial_board None false None false.

End Brain.

(** ** A rules capability: the chess rules on an 8x8 array

    An implementation of the interface of [Section Brain], in the way of
    python-chess: boards of 64 squares, the legal moves of the side to move
    (castling, en passant and promotion included), checkmate and FEN. *)

Module Chess.

Local Open Scope list_scope.

Inductive PieceType := PAWN | KNIGHT | BISHOP | ROOK | QUEEN | KING.
Record Piece := mkPiece { piece_type : PieceType; color : Color }.
Record Move := mkMove { from_square : nat; to_square : nat; promotion : option PieceType }.

Global Instance PieceType_eq_dec : EqDecision PieceType.
Proof. solve_decision. Defined.
Global Instance Piece_eq_dec : EqDecision Piece.
Proof. solve_decision. Defined.
Global Instance Move_eq_dec : EqDecision Move.
Proof. solve_decision. Defined.

Record Board := mkBoard {
  squares : list (option Piece);   (* a1, b1, ..., h8 *)
  turn : Color;
  castling_rights : list nat;      (* rooks that may still castle *)
  ep_square : option nat;
  halfmove_clock : nat;
  fullmove_number : nat
}.

Definition opponent (c : Color) : Color := if c is WHITE then BLACK else WHITE.

Definition file_of (sq : nat) : Z := Z.of_nat (sq `mod` 8).
Definition rank_of (sq : nat) : Z := Z.of_nat (sq `div` 8).
Definition on_board (f r : Z) : bool := ((0 <=? f) && (f <? 8) && (0 <=? r) && (r <? 8))%Z.
Definition square (f r : Z) : nat := Z.to_nat (r * 8 + f).

Definition piece_at (b : Board) (sq : nat) : option Piece := squares b !! sq ≫= id.
Definition color_at (b : Board) (sq : nat) : option Color := color <$> piece_at b sq.
Definition is_empty (b : Board) (sq : nat) : bool := bool_decide (piece_at b sq = None).

Definition occupied (b : Board) : list (nat * Piece) :=
  omap (λ sq, (λ p, (sq, p)) <$> piece_at b sq) (seq 0 64).

(** *** Attacks *)

Definition step_targets (sq : nat) (deltas : list (Z * Z)) : list nat :=
  omap (λ '(df, dr),
          let f := (file_of sq + df)%Z in
          let r := (rank_of sq + dr)%Z in
          if on_board f r then Some (square f r) else None) deltas.

Fixpoint slide (b : Board) (f r df dr : Z) (fuel : nat) : list nat :=
  match fuel with
  | O => []
  | S fuel =>
      let f := (f + df)%Z in
      let r := (r + dr)%Z in
      if on_board f r then
        if is_empty b (square f r) then square f r :: slide b f r df dr fuel
        else [square f r]
      else []
  end.

Definition slide_targets (b : Board) (sq : nat) (dirs : list (Z * Z)) : list nat :=
  dirs ≫= (λ '(df, dr), slide b (file_of sq) (rank_of sq) df dr 7).

Definition diagonals : list (Z * Z) := [(1, 1); (1, -1); (-1, 1); (-1, -1)]%Z.
Definition straights : list (Z * Z) := [(1, 0); (-1, 0); (0, 1); (0, -1)]%Z.
Definition knight_steps : list (Z * Z) :=
  [(1, 2); (2, 1); (2, -1); (1, -2); (-1, -2); (-2, -1); (-2, 1); (-1, 2)]%Z.
Definition forward (c : Color) : Z := if c is WHITE then 1%Z else (-1)%Z.

Definition attacks (b : Board) (sq : nat) (p : Piece) : list nat :=
  match piece_type p with
  | PAWN => step_targets sq [((-1)%Z, forward (color p)); (1%Z, forward (color p))]
  | KNIGHT => step_targets sq knight_steps
  | KING => step_targets sq (diagonals ++ straights)
  | BISHOP => slide_targets b sq diagonals
  | ROOK => slide_targets b sq straights
  | QUEEN => slide_targets b sq (diagonals ++ straights)
  end.

Definition is_attacked_by (b : Board) (c : Color) (sq : nat) : bool :=
  existsb (λ '(s, p), bool_decide (color p = c) && bool_decide (sq ∈ attacks b s p))
          (occupied b).

Definition king (b : Board) (c : Color) : option nat :=
  fst <$> head (filter (λ '(_, p), p = mkPiece KING c) (occupied b)).

Definition in_check (b : Board) (c : Color) : bool :=
  match king b c with
  | Some k => is_attacked_by b (opponent c) k
  | None => false
  end.

(** *** Making a move *)

Definition put (sq : nat) (p : option Piece) (l : list (option Piece)) := <[sq := p]> l.

Definition is_castling (b : Board) (m : Move) : bool :=
  bool_decide (piece_type <$> piece_at b (from_square m) = Some KING)
  && bool_decide (Z.abs (file_of (from_square m) - file_of (to_square m)) = 2)%Z.

Definition is_en_passant (b : Board) (m : Move) : bool :=
  bool_decide (piece_type <$> piece_at b (from_square m) = Some PAWN)
  && bool_decide (ep_square b = Some (to_square m))
  && negb (bool_decide (file_of (from_square m) = file_of (to_square m)))
  && is_empty b (to_square m).

Definition push (b : Board) (m : Move) : Board :=
  match piece_at b (from_square m) with
  | None => b
  | Some p =>
      let src := from_square m in
      let dst := to_square m in
      let placed := match promotion m with
                    | Some t => mkPiece t (color p)
                    | None => p
                    end in
      let sqs := put dst (Some placed) (put src None (squares b)) in
      let sqs := if is_en_passant b m
                 then put (square (file_of dst) (rank_of src)) None sqs else sqs in
      let sqs := if is_castling b m then
                   let r := rank_of src in
                   if (file_of dst =? 6)%Z
                   then put (square 5 r) (Some (mkPiece ROOK (color p))) (put (square 7 r) None sqs)
                   else put (square 3 r) (Some (mkPiece ROOK (color p))) (put (square 0 r) None sqs)
                 else sqs in
      let rights := filter (λ r, r ≠ src ∧ r ≠ dst) (castling_rights b) in
      let rights := if decide (piece_type p = KING)
                    then filter (λ r, rank_of r ≠ rank_of src) rights else rights in
      let double := bool_decide (piece_type p = PAWN)
                    && bool_decide (Z.abs (rank_of src - rank_of dst) = 2)%Z in
      let ep := if double
                then Some (square (file_of src) (rank_of src + forward (color p))) else None in
      let resets := bool_decide (piece_type p = PAWN) || negb (is_empty b dst) in
      mkBoard sqs (opponent (turn b)) rights ep
              (if resets then 0 else S (halfmove_clock b))
              (if turn b is BLACK then S (fullmove_number b) else fullmove_number b)
  end.

(** *** Move generation *)

Definition promotions (src dst : nat) (c : Color) : list Move :=
  if (rank_of dst =? (if c is WHITE then 7 else 0))%Z
  then mkMove src dst <$> [Some QUEEN; Some ROOK; Some BISHOP; Some KNIGHT]
  else [mkMove src dst None].

Definition pawn_moves (b : Board) (sq : nat) (c : Color) : list Move :=
  let f := file_of sq in
  let r := rank_of sq in
  let d := forward c in
  let one := square f (r + d) in
  let two := square f (r + 2 * d) in
  let pushes :=
    if on_board f (r + d) && is_empty b one then
      promotions sq one c
      ++ (if (r =? (if c is WHITE then 1 else 6))%Z && is_empty b two
          then [mkMove sq two None] else [])
    else [] in
  let captures :=
    filter (λ t, color_at b t = Some (opponent c) ∨ ep_square b = Some t)
           (step_targets sq [((-1)%Z, d); (1%Z, d)]) in
  pushes ++ (captures ≫= (λ t, promotions sq t c)).

Definition castling_moves (b : Board) (c : Color) : list Move :=
  let r := if c is WHITE then 0%Z else 7%Z in
  let k := square 4 r in
  let side (rook : nat) (empties safe : list Z) (dst : Z) : list Move :=
    if bool_decide (rook ∈ castling_rights b)
       && bool_decide (piece_at b rook = Some (mkPiece ROOK c))
       && forallb (λ f, is_empty b (square f r)) empties
       && forallb (λ f, negb (is_attacked_by b (opponent c) (square f r))) safe
    then [mkMove k (square dst r) None] else [] in
  if bool_decide (piece_at b k = Some (mkPiece KING c)) then
    side (square 7 r) [5; 6]%Z [4; 5; 6]%Z 6%Z
    ++ side (square 0 r) [1; 2; 3]%Z [4; 3; 2]%Z 2%Z
  else [].

Definition pseudo_legal_moves (b : Board) : list Move :=
  occupied b ≫= (λ '(sq, p),
    if decide (color p = turn b) then
      match piece_type p with
      | PAWN => pawn_moves b sq (color p)
      | t =>
          ((λ dst, mkMove sq dst None)
             <$> filter (λ dst, color_at b dst ≠ Some (color p)) (attacks b sq p))
          ++ (if decide (t = KING) then castling_moves b (color p) else [])
      end
    else []).

Definition legal_moves (b : Board) : list Move :=
  filter (λ m, in_check (push b m) (turn b) = false) (pseudo_legal_moves b).

Definition is_legal (b : Board) (m : Move) : bool := bool_decide (m ∈ legal_moves b).

Definition is_checkmate (b : Board) : bool :=
  in_check b (turn b) && bool_decide (legal_moves b = []).

Definition is_stalemate (b : Board) : bool :=
  negb (in_check b (turn b)) && bool_decide (legal_moves b = []).

(** *** Text: coordinate notation and FEN *)

Fixpoint index_of (c : ascii) (s : string) : option nat :=
  match s with
  | EmptyString => None
  | String c' s' => if decide (c' = c) then Some 0 else S <$> index_of c s'
  end.

Definition parse_square (file rank : ascii) : option nat :=
  f ← index_of file "abcdefgh";
  r ← index_of rank "12345678";
  Some (r * 8 + f).

Definition piece_symbol (t : PieceType) : ascii :=
  match t with
  | PAWN => "p" | KNIGHT => "n" | BISHOP => "b"
  | ROOK => "r" | QUEEN => "q" | KING => "k"
  end%char.

Definition parse_piece_type (c : ascii) : option PieceType :=
  head (filter (λ t, piece_symbol t = c) [PAWN; KNIGHT; BISHOP; ROOK; QUEEN; KING]).

(** [chess.Move.from_uci] on the texts of ordinary moves; "0000" is the
    null move; [None] where python-chess raises. *)
Definition from_uci (uci : string) : option Move :=
  if decide (uci = "0000") then Some (mkMove 0 0 None)
  else
    match list_ascii_of_string uci with
    | [f1; r1; f2; r2] =>
        src ← parse_square f1 r1;
        dst ← parse_square f2 r2;
        if decide (src = dst) then None else Some (mkMove src dst None)
    | [f1; r1; f2; r2; p] =>
        src ← parse_square f1 r1;
        dst ← parse_square f2 r2;
        t ← parse_piece_type p;
        if decide (src = dst) then None else Some (mkMove src dst (Some t))
    | _ => None
    end.

Definition symbol (p : Piece) : ascii :=
  let c := piece_symbol (piece_type p) in
  if color p is WHITE then ascii_of_N (N_of_ascii c - 32) else c.

(** One rank of the placement field, from the a-file on; [gap] counts the
    empty squares not yet written. *)
Fixpoint fen_rank (row : list (option Piece)) (gap : nat) : string :=
  let flush := if gap is O then EmptyString else pretty gap in
  match row with
  | [] => flush
  | None :: row => fen_rank row (S gap)
  | Some p :: row => (flush ++ String (symbol p) (fen_rank row 0))%string
  end.

Definition fen_placement (b : Board) : string :=
  String.concat "/"
    ((λ r, fen_rank (take 8 (drop (r * 8) (squares b))) 0) <$> reverse (seq 0 8)).

Definition fen_castling (b : Board) : string :=
  let flag (rook : nat) (s : string) :=
    if bool_decide (rook ∈ castling_rights b) then s else EmptyString in
  let s := (flag 7 "K" ++ flag 0 "Q" ++ flag 63 "k" ++ flag 56 "q")%string in
  if decide (s = EmptyString) then "-" else s.

Definition fen_ep (b : Board) : string :=
  match ep_square b with
  | Some sq =>
      if existsb (is_en_passant b) (legal_moves b) then square_name sq else "-"
  | None => "-"
  end.

(** [board.fen()] *)
Definition fen (b : Board) : string :=
  String.concat " "
    [fen_placement b; if turn b is WHITE then "w" else "b"; fen_castling b;
     fen_ep b; pretty (halfmove_clock b); pretty (fullmove_number b)].

(** The placement field of a FEN text read back into 64 squares. *)
Fixpoint parse_rank (s : string) : list (option Piece) :=
  match s with
  | EmptyString => []
  | String c s' =>
      let n := N_of_ascii c in
      if ((49 <=? n) && (n <=? 56))%N
      then replicate (N.to_nat (n - 48)) None ++ parse_rank s'
      else
        let p := if ((65 <=? n) && (n <=? 90))%N
                 then (λ t, mkPiece t WHITE) <$> parse_piece_type (Py.lower_char c)
                 else (λ t, mkPiece t BLACK) <$> parse_piece_type c in
        p :: parse_rank s'
  end.

Definition parse_placement (s : string) : list (option Piece) :=
  concat (parse_rank <$> reverse (Py.split "/" s)).

(** The position installed by [chess.Board()] and by [board.reset()]. *)
Definition initial_board : Board :=
  mkBoard (parse_placement "rnbqkbnr/pppppppp/8/8/8/8/PPPPPPPP/RNBQKBNR")
          WHITE [0; 7; 56; 63] None 0 1.

Fixpoint perft (n : nat) (b : Board) : nat :=
  match n with
  | O => 1
  | S n => sum_list ((λ m, perft n (push b m)) <$> legal_moves b)
  end.

(** [move.uci()] *)
Definition uci (m : Move) : string :=
  (square_name (from_square m) ++ square_name (to_square m)
   ++ match promotion m with
      | Some t => String (piece_symbol t) EmptyString
      | None => EmptyString
      end)%string.

Definition parse_nat (s : string) : option nat :=
  foldl (λ acc c, n ← acc; d ← index_of c "0123456789"; Some (n * 10 + d)) (Some 0)
        (list_ascii_of_string s).

(** A FEN text read back into a board. *)
Definition parse_fen (s : string) : option Board :=
  match Py.split " " s with
  | [placement; side; castling; ep; half; full] =>
      let rights :=
        omap (λ '(c, rook), if Py.char_in c castling then Some rook else None)
             [("Q"%char, 0); ("K"%char, 7); ("q"%char, 56); ("k"%char, 63)] in
      let ep := match list_ascii_of_string ep with
                | [f; r] => parse_square f r
                | _ => None
                end in
      h ← parse_nat half;
      n ← parse_nat full;
      Some (mkBoard (parse_placement placement)
                    (if decide (side = "w") then WHITE else BLACK) rights ep h n)
  | _ => None
  end.

(** *** An engine

    The moves of the black side in a known ten-move game, by position;
    elsewhere the first legal move of the side to move.  It has no reply
    exactly where the side to move has no legal move. *)
Definition book : gmap string string :=
  list_to_map
    [("rnbqkbnr/pppppppp/8/8/8/4P3/PPPP1PPP/RNBQKBNR b KQkq - 0 1", "a7a5");
     ("rnbqkbnr/1ppppppp/8/p6Q/8/4P3/PPPP1PPP/RNB1KBNR b KQkq - 1 2", "a8a6");
     ("1nbqkbnr/1ppppppp/r7/Q7/8/4P3/PPPP1PPP/RNB1KBNR b KQk - 0 3", "h7h5");
     ("1nbqkbnr/1pppppp1/r7/Q6p/7P/4P3/PPPP1PP1/RNB1KBNR b KQk - 0 4", "a6h6");
     ("1nbqkbnr/1pQpppp1/7r/7p/7P/4P3/PPPP1PP1/RNB1KBNR b KQk - 0 5", "f7f6");
     ("1nbqkbnr/1p1Qp1p1/5p1r/7p/7P/4P3/PPPP1PP1/RNB1KBNR b KQk - 0 6", "e8f7");
     ("1nbq1bnr/1Q2pkp1/5p1r/7p/7P/4P3/PPPP1PP1/RNB1KBNR b KQ - 0 7", "d8d3");
     ("1Qb2bnr/4pkp1/5p1r/7p/7P/3qP3/PPPP1PP1/RNB1KBNR b KQ - 0 8", "d3h7");
     ("2Q2bnr/4pkpq/5p1r/7p/7P/4P3/PPPP1PP1/RNB1KBNR b KQ - 0 9", "f7g6")].

Definition engine (fen : string) : option string :=
  match book !! fen with
  | Some reply => Some reply
  | None => b ← parse_fen fen; uci <$> head (legal_moves b)
  end.

(** *** The controller over these rules and this engine *)

Abbreviation Brain := (@ChessBrain Board).

Definition process_move : Brain → string → Brain * outcome string :=
  process_move from_uci is_legal push is_checkmate color_at fen engine.
Definition start_game : Brain → string → Brain * outcome string :=
  start_game initial_board from_uci is_legal push is_checkmate color_at fen engine.
Definition _get_piece_snapshot : Brain → Snapshot := _get_piece_snapshot color_at.

(** The session after [start_game] and then each input of [inputs]. *)
Definition session (color : string) (inputs : list string) : Brain :=
  foldl (λ self incoming, (process_move self incoming).1)
        (start_game (new_brain initial_board) color).1 inputs.

(** The white side of the game of [book], up to its ninth move. *)
Definition nine_moves : list string :=
  ["e2e3"; "d1h5"; "h5a5"; "h2h4"; "a5c7"; "c7d7"; "d7b7"; "b7b8"; "b8c8"].

End Chess.

(** ** Vocabulary of the statements *)

Local Open Scope list_scope.

(** A part of the input that the parser's loop recognises as a token of the
    colour whose prefix is [p] ("white:" or "black:"). *)
Definition is_token (p part : string) : bool := Py.startswith p (Py.strip part).

(** The candidate squares a token lists: the non-blank, trimmed fields
    between the first and the second colon. *)
Definition token_squares (part : string) : list string :=
  squares_of (default EmptyString (Py.split ":" (Py.strip part) !! 1%nat)).

(** The last token of a colour among the parts. *)
Definition last_token (p : string) (parts : list string) : option string :=
  last (filter (λ part, is_token p part = true) parts).

(** The candidate squares of a colour in an input text: those of its last
    token, none when it has no token. *)
Definition candidates (p txt : string) : list string :=
  from_option token_squares [] (last_token p (parts_of (Py.lower (Py.strip txt)))).

(** Every candidate of every token of a colour in an input text. *)
Definition all_candidates (p txt : string) : list string :=
  filter (λ part, is_token p part = true) (parts_of (Py.lower (Py.strip txt)))
    ≫= token_squares.

(** The squares a colour left and the squares it took, between the current
    list of its squares and the new one. *)
Definition removed (current new : list string) : gset string :=
  list_to_set current ∖ list_to_set new.
Definition added (current new : list string) : gset string :=
  list_to_set new ∖ list_to_set current.

(** The number of pieces a snapshot lists. *)
Definition piece_count (s : Snapshot) : nat := length (white s) + length (black s).

(** A square is in at most one of the two sets. *)
Definition disjoint_colors (s : Snapshot) : Prop :=
  ∀ sq, ¬ (sq ∈ white s ∧ sq ∈ black s).

(** The stored snapshot of a session, when there is one, keeps the colours
    apart. *)
Definition stored_disjoint {Board : Type} (self : @ChessBrain Board) : Prop :=
  from_option disjoint_colors True (last_position_snapshot self).

(** * Properties *)

(** A closed decidable proposition, by evaluation. *)
Ltac by_compute := apply (bool_decide_unpack _); vm_compute; exact I.

(** ** The snapshot parser *)

Section parser.

Lemma startswith_app p s : Py.startswith p s = true → ∃ r, s = (p ++ r)%string.
Proof.
  unfold Py.startswith. revert s.
  induction p as [|a p IH]; intros s H; [by exists s|].
  destruct s as [|b s]; [done|]. simpl in H.
  destruct (ascii_dec a b) as [->|]; [|done].
  destruct (IH s H) as [r ->]. by exists r.
Qed.

Lemma split_contains sep s :
  Py.contains sep s = true → ∃ a b t, Py.split sep s = a :: b :: t.
Proof.
  induction s as [|c s IH]; simpl; [done|].
  case_decide as Hc.
  - intros _. destruct (Py.split sep s) as [|h t] eqn:E; [by destruct s; simpl in E; repeat case_match|].
    by exists EmptyString, h, t.
  - intros H. destruct (IH H) as (a & b & t & ->). by exists (String c a), b, t.
Qed.

Lemma contains_app_r sep s1 s2 :
  Py.contains sep s2 = true → Py.contains sep (s1 ++ s2) = true.
Proof. induction s1; simpl; [done|]. intros. case_decide; auto. Qed.

Lemma contains_app_l sep s1 s2 :
  Py.contains sep s1 = true → Py.contains sep (s1 ++ s2) = true.
Proof. induction s1; simpl; [done|]. intros. case_decide; auto. Qed.

(** The index [1] taken by the loop is always in range. *)
Lemma token_has_field p part :
  Py.contains ":" p = true → Py.startswith p part = true →
  is_Some (Py.split ":" part !! 1%nat).
Proof.
  intros Hp [r ->]%startswith_app.
  destruct (split_contains ":" (p ++ r)) as (a & b & t & ->); [by apply contains_app_l|].
  by eexists.
Qed.

Lemma white_not_black part :
  Py.startswith "white:" part = true → Py.startswith "black:" part = false.
Proof. intros [r ->]%startswith_app. done. Qed.

Lemma parse_part_white acc part :
  is_token "white:" part = true →
  parse_part acc part = Some (token_squares part, acc.2).
Proof.
  unfold is_token, parse_part, token_squares. intros H. rewrite H.
  by destruct (token_has_field "white:" _ eq_refl H) as [x ->].
Qed.

Lemma parse_part_black acc part :
  is_token "black:" part = true →
  parse_part acc part = Some (acc.1, token_squares part).
Proof.
  unfold is_token, parse_part, token_squares. intros H. rewrite H.
  destruct (Py.startswith "white:" _) eqn:E;
    [by rewrite (white_not_black _ E) in H|].
  by destruct (token_has_field "black:" _ eq_refl H) as [x ->].
Qed.

Lemma parse_part_other acc part :
  is_token "white:" part = false → is_token "black:" part = false →
  parse_part acc part = Some acc.
Proof. unfold is_token, parse_part. by intros -> ->. Qed.

Lemma last_token_cons p part parts :
  last_token p (part :: parts) =
    match last_token p parts with
    | Some t => Some t
    | None => if is_token p part then Some part else None
    end.
Proof.
  unfold last_token. rewrite filter_cons.
  destruct (is_token p part); case_decide; try done.
  - by rewrite last_cons.
  - by destruct (last _).
Qed.

(** The loop keeps, for each colour, the squares of its last token. *)
Lemma parse_parts_last parts acc :
  parse_parts parts acc =
    Some (from_option token_squares acc.1 (last_token "white:" parts),
          from_option token_squares acc.2 (last_token "black:" parts)).
Proof.
  revert acc. induction parts as [|part parts IH]; intros [w b]; [done|].
  simpl. rewrite !last_token_cons.
  destruct (is_token "white:" part) eqn:Hw.
  - rewrite (parse_part_white _ _ Hw). simpl. rewrite IH. simpl.
    replace (is_token "black:" part) with false
      by (symmetry; apply white_not_black, Hw).
    by destruct (last_token "white:" parts), (last_token "black:" parts).
  - destruct (is_token "black:" part) eqn:Hb.
    + rewrite (parse_part_black _ _ Hb). simpl. rewrite IH. simpl.
      by destruct (last_token "white:" parts), (last_token "black:" parts).
    + rewrite (parse_part_other _ _ Hw Hb). simpl. rewrite IH. simpl.
      by destruct (last_token "white:" parts), (last_token "black:" parts).
Qed.

Lemma parse_positions_last txt :
  _parse_positions txt =
    Some (mkSnapshot
            (Py.sorted (filter (λ sq, sq ∈ valid_squares) (candidates "white:" txt)))
            (Py.sorted (filter (λ sq, sq ∈ valid_squares) (candidates "black:" txt)))).
Proof. unfold _parse_positions, candidates. by rewrite parse_parts_last. Qed.

End parser.

Section parser_claims.

Lemma sorted_Permutation l : Py.sorted l ≡ₚ l.
Proof. apply merge_sort_Permutation. Qed.

Lemma sorted_StronglySorted l : StronglySorted String.le (Py.sorted l).
Proof. apply (StronglySorted_merge_sort _). Qed.

Lemma last_token_None p parts :
  Forall (λ part, is_token p part = false) parts → last_token p parts = None.
Proof.
  induction 1 as [|part parts Hp _ IH]; [done|].
  by rewrite last_token_cons, IH, Hp.
Qed.

Lemma last_token_middle p before tok after :
  is_token p tok = true → Forall (λ part, is_token p part = false) after →
  last_token p (before ++ tok :: after) = Some tok.
Proof.
  intros Ht Ha. induction before as [|x before IH]; simpl.
  - by rewrite last_token_cons, (last_token_None _ _ Ha), Ht.
  - by rewrite last_token_cons, IH.
Qed.

Lemma parse_parts_ignores parts acc :
  parse_parts parts acc =
  parse_parts (filter (λ part, is_token "white:" part = true ∨ is_token "black:" part = true)
                      parts) acc.
Proof.
  revert acc. induction parts as [|part parts IH]; intros acc; [done|].
  rewrite filter_cons. case_decide as Hd.
  - simpl. destruct (parse_part acc part); simpl; [apply IH|done].
  - simpl. rewrite parse_part_other, <- IH; [done| |];
      apply not_true_is_false; tauto.
Qed.

(** The 64 coordinates are the names of the 64 squares of the board. *)
Lemma valid_squares_names : valid_squares = list_to_set (square_name <$> seq 0 64).
Proof. apply (bool_decide_unpack _). vm_compute. exact I. Qed.

End parser_claims.

(** C10.  The snapshot parser is total: for every input text
    [_parse_positions] returns a snapshot and never the [None] of its
    [except] branch, because the index [1] it takes of [part.split(":")] is
    only taken of a part that starts with "white:" or "black:" and so has a
    colon.  The parse-failure branch of [process_move] is therefore dead. *)
Theorem parse_positions_total (txt : string) :
  ∃ snap, _parse_positions txt = Some snap.
Proof. rewrite parse_positions_last. by eexists. Qed.

(** C9.  For every input text the parser returns a snapshot (no failure)
    whose white and black lists are exactly the candidate squares of the
    colour that belong to the 64 board coordinates (the names of the squares
    0..63), the others being dropped; both lists are sorted in ascending
    order; and a text in which no part is a "white:" or "black:" token gives
    the empty snapshot. *)
Theorem parse_positions_validates_and_sorts (txt : string) :
  ∃ snap,
    _parse_positions txt = Some snap
    ∧ size valid_squares = 64
    ∧ valid_squares = list_to_set (square_name <$> seq 0 64)
    ∧ white snap ≡ₚ filter (λ sq, sq ∈ valid_squares) (candidates "white:" txt)
    ∧ black snap ≡ₚ filter (λ sq, sq ∈ valid_squares) (candidates "black:" txt)
    ∧ Forall (λ sq, sq ∈ valid_squares) (white snap ++ black snap)
    ∧ StronglySorted String.le (white snap)
    ∧ StronglySorted String.le (black snap)
    ∧ (Forall (λ part, is_token "white:" part = false ∧ is_token "black:" part = false)
              (parts_of (Py.lower (Py.strip txt))) →
       snap = mkSnapshot [] []).
Proof.
  eexists. split; [apply parse_positions_last|]. simpl.
  split; [by vm_compute|].
  split; [apply valid_squares_names|].
  split; [apply sorted_Permutation|].
  split; [apply sorted_Permutation|].
  split.
  { apply Forall_app. split; apply Forall_forall; intros sq;
      rewrite sorted_Permutation, list_elem_of_filter; tauto. }
  split; [apply sorted_StronglySorted|].
  split; [apply sorted_StronglySorted|].
  intros Hno. unfold candidates.
  rewrite !last_token_None; [done| |];
    (eapply Forall_impl; [exact Hno|]); simpl; tauto.
Qed.

(** C8, as the code has it.  A token of a colour does not add to the
    squares of that colour, it replaces them: when the parts of the text are
    [before ++ tok :: after] and [tok] is the last "white:" (or "black:")
    token, the white (black) list of the result is the sorted list of the
    valid squares of [tok] alone, whatever tokens [before] holds.  Parts that
    are no token change nothing: the loop gives the same result on the
    tokens alone. *)
Theorem parse_positions_last_token_wins (p : string) (txt : string)
    (before after : list string) (tok : string) :
  p = "white:" ∨ p = "black:" →
  parts_of (Py.lower (Py.strip txt)) = before ++ tok :: after →
  is_token p tok = true →
  Forall (λ part, is_token p part = false) after →
  (∃ snap, _parse_positions txt = Some snap
     ∧ (if decide (p = "white:") then white snap else black snap)
       = Py.sorted (filter (λ sq, sq ∈ valid_squares) (token_squares tok)))
  ∧ (∀ parts acc,
       parse_parts parts acc =
       parse_parts (filter (λ part, is_token "white:" part = true
                                    ∨ is_token "black:" part = true) parts) acc).
Proof.
  intros Hp Hparts Htok Hafter. split; [|apply parse_parts_ignores].
  eexists. split; [apply parse_positions_last|].
  unfold candidates. rewrite Hparts.
  destruct Hp as [-> | ->]; simpl;
    by rewrite (last_token_middle _ _ _ _ Htok Hafter).
Qed.

Lemma parse_positions_last_token_wins_witness :
  ∃ snap, _parse_positions "white:a1;junk;white:a2" = Some snap
          ∧ white snap = ["a2"].
Proof.
  destruct (parse_positions_last_token_wins "white:" "white:a1;junk;white:a2"
              ["white:a1"; "junk"] [] "white:a2") as [(snap & Hs & Hw) _].
  - by left.
  - reflexivity.
  - reflexivity.
  - constructor.
  - exists snap. split; [exact Hs|]. rewrite decide_True in Hw by done.
    rewrite Hw. by vm_compute.
Defined.

(** C8 as stated fails: with two white tokens the result is not the union
    of their squares; the square a1 of the first token is a valid candidate
    of a white token and is missing from the white list. *)
Lemma parse_positions_union_counterexample :
  _parse_positions "white:a1;white:a2" = Some (mkSnapshot ["a2"] [])
  ∧ "a1" ∈ all_candidates "white:" "white:a1;white:a2"
  ∧ "a1" ∈ valid_squares
  ∧ "a1" ∉ ["a2"].
Proof.
  split; [by vm_compute|].
  split; [by apply (bool_decide_unpack _); vm_compute|].
  split; [by apply (bool_decide_unpack _); vm_compute|].
  by apply (bool_decide_unpack _); vm_compute.
Qed.

(** C7 as stated fails for the parser: a text that names one square under
    both colours parses to a snapshot with that square in both lists. *)
Lemma parse_positions_overlap_counterexample :
  _parse_positions "white:a1;black:a1" = Some (mkSnapshot ["a1"] ["a1"])
  ∧ "a1" ∈ white (mkSnapshot ["a1"] ["a1"])
  ∧ "a1" ∈ black (mkSnapshot ["a1"] ["a1"]).
Proof. split; [by vm_compute|]. split; simpl; apply list_elem_of_here. Qed.

(** ** The move inferencer *)

Section inferencer.

Implicit Types new_pos current_pos : Snapshot.

Lemma pattern_ne (X Y : gset string) : bool_decide (X = Y) = false → X ≠ Y.
Proof. by intros H%bool_decide_eq_false. Qed.

Lemma deduce_e1g1 new_pos current_pos :
  removed (white current_pos) (white new_pos) = {["e1"; "h1"]} →
  added (white current_pos) (white new_pos) = {["g1"; "f1"]} →
  _deduce_move_from_snapshot new_pos current_pos = Some "e1g1".
Proof.
  unfold removed, added, _deduce_move_from_snapshot. intros -> ->.
  by rewrite !(bool_decide_eq_true_2 (_ = _) eq_refl).
Qed.

Lemma deduce_e1c1 new_pos current_pos :
  removed (white current_pos) (white new_pos) = {["e1"; "a1"]} →
  added (white current_pos) (white new_pos) = {["c1"; "d1"]} →
  _deduce_move_from_snapshot new_pos current_pos = Some "e1c1".
Proof.
  unfold removed, added, _deduce_move_from_snapshot. intros -> ->.
  rewrite (bool_decide_eq_false_2 (_ = {["e1"; "h1"]}))
    by (by apply pattern_ne; vm_compute).
  by rewrite !(bool_decide_eq_true_2 (_ = _) eq_refl).
Qed.

Lemma not_both_decide (P Q : Prop) `{!Decision P, !Decision Q} :
  ¬ (P ∧ Q) → bool_decide P && bool_decide Q = false.
Proof. intros H. do 2 case_bool_decide; naive_solver. Qed.

Lemma deduce_e8g8 new_pos current_pos :
  ¬ (removed (white current_pos) (white new_pos) = {["e1"; "h1"]}
     ∧ added (white current_pos) (white new_pos) = {["g1"; "f1"]}) →
  ¬ (removed (white current_pos) (white new_pos) = {["e1"; "a1"]}
     ∧ added (white current_pos) (white new_pos) = {["c1"; "d1"]}) →
  removed (black current_pos) (black new_pos) = {["e8"; "h8"]} →
  added (black current_pos) (black new_pos) = {["g8"; "f8"]} →
  _deduce_move_from_snapshot new_pos current_pos = Some "e8g8".
Proof.
  unfold removed, added, _deduce_move_from_snapshot. intros Hk Hq -> ->.
  rewrite (not_both_decide _ _ Hk), (not_both_decide _ _ Hq).
  by rewrite !(bool_decide_eq_true_2 (_ = _) eq_refl).
Qed.

Lemma deduce_e8c8 new_pos current_pos :
  ¬ (removed (white current_pos) (white new_pos) = {["e1"; "h1"]}
     ∧ added (white current_pos) (white new_pos) = {["g1"; "f1"]}) →
  ¬ (removed (white current_pos) (white new_pos) = {["e1"; "a1"]}
     ∧ added (white current_pos) (white new_pos) = {["c1"; "d1"]}) →
  removed (black current_pos) (black new_pos) = {["e8"; "a8"]} →
  added (black current_pos) (black new_pos) = {["c8"; "d8"]} →
  _deduce_move_from_snapshot new_pos current_pos = Some "e8c8".
Proof.
  unfold removed, added, _deduce_move_from_snapshot. intros Hk Hq -> ->.
  rewrite (not_both_decide _ _ Hk), (not_both_decide _ _ Hq).
  rewrite (bool_decide_eq_false_2 (_ = {["e8"; "h8"]}))
    by (by apply pattern_ne; vm_compute).
  by rewrite !(bool_decide_eq_true_2 (_ = _) eq_refl).
Qed.

(** With the white sets unchanged no white castling pattern matches. *)
Lemma unchanged_no_pattern (X Y A B : gset string) :
  X = ∅ → bool_decide ((∅ : gset string) = A) = false → ¬ (X = A ∧ Y = B).
Proof. intros -> H%bool_decide_eq_false [? _]. done. Qed.

End inferencer.

(** C3.  Castling is inferred from its occupancy pattern, before any other
    pattern is looked at.  Whatever the black delta is, white removed
    {e1,h1} and added {g1,f1} gives e1g1, and white removed {e1,a1} and added
    {c1,d1} gives e1c1.  When the white delta is neither of these two (in
    particular when the white sets are unchanged), black removed {e8,h8} and
    added {g8,f8} gives e8g8, and black removed {e8,a8} and added {c8,d8}
    gives e8c8.  No quiet-move or capture pattern is consulted in these
    cases. *)
Theorem castling_patterns_first (new_pos current_pos : Snapshot) :
  let white_removed := removed (white current_pos) (white new_pos) in
  let white_added := added (white current_pos) (white new_pos) in
  let black_removed := removed (black current_pos) (black new_pos) in
  let black_added := added (black current_pos) (black new_pos) in
  let inferred := _deduce_move_from_snapshot new_pos current_pos in
  let white_castles :=
    (white_removed = {["e1"; "h1"]} ∧ white_added = {["g1"; "f1"]})
    ∨ (white_removed = {["e1"; "a1"]} ∧ white_added = {["c1"; "d1"]}) in
  (white_removed = {["e1"; "h1"]} → white_added = {["g1"; "f1"]} →
   inferred = Some "e1g1")
  ∧ (white_removed = {["e1"; "a1"]} → white_added = {["c1"; "d1"]} →
     inferred = Some "e1c1")
  ∧ (black_removed = {["e8"; "h8"]} → black_added = {["g8"; "f8"]} →
     ¬ white_castles → inferred = Some "e8g8")
  ∧ (black_removed = {["e8"; "a8"]} → black_added = {["c8"; "d8"]} →
     ¬ white_castles → inferred = Some "e8c8")
  ∧ (white_removed = ∅ → ¬ white_castles).
Proof.
  simpl. repeat split.
  - apply deduce_e1g1.
  - apply deduce_e1c1.
  - intros. apply deduce_e8g8; tauto.
  - intros. apply deduce_e8c8; tauto.
  - intros H [Hc | Hc]; revert Hc;
      by apply unchanged_no_pattern; [|vm_compute].
Qed.

Lemma castling_patterns_first_witness :
  _deduce_move_from_snapshot (mkSnapshot ["a1"; "f1"; "g1"] ["e8"; "h8"])
                             (mkSnapshot ["a1"; "e1"; "h1"] ["e8"; "h8"]) = Some "e1g1"
  ∧ _deduce_move_from_snapshot (mkSnapshot ["c1"; "d1"; "h1"] ["e8"; "h8"])
                               (mkSnapshot ["a1"; "e1"; "h1"] ["e8"; "h8"]) = Some "e1c1"
  ∧ _deduce_move_from_snapshot (mkSnapshot ["e1"; "h1"] ["a8"; "f8"; "g8"])
                               (mkSnapshot ["e1"; "h1"] ["a8"; "e8"; "h8"]) = Some "e8g8"
  ∧ _deduce_move_from_snapshot (mkSnapshot ["e1"; "h1"] ["c8"; "d8"; "h8"])
                               (mkSnapshot ["e1"; "h1"] ["a8"; "e8"; "h8"]) = Some "e8c8".
Proof.
  split; [|split; [|split]].
  - apply (castling_patterns_first (mkSnapshot ["a1"; "f1"; "g1"] ["e8"; "h8"])
             (mkSnapshot ["a1"; "e1"; "h1"] ["e8"; "h8"])); by_compute.
  - apply (castling_patterns_first (mkSnapshot ["c1"; "d1"; "h1"] ["e8"; "h8"])
             (mkSnapshot ["a1"; "e1"; "h1"] ["e8"; "h8"])); by_compute.
  - pose proof (castling_patterns_first (mkSnapshot ["e1"; "h1"] ["a8"; "f8"; "g8"])
                  (mkSnapshot ["e1"; "h1"] ["a8"; "e8"; "h8"])) as (_ & _ & H & _ & Hw).
    apply H; [by_compute | by_compute | apply Hw; by_compute].
  - pose proof (castling_patterns_first (mkSnapshot ["e1"; "h1"] ["c8"; "d8"; "h8"])
                  (mkSnapshot ["e1"; "h1"] ["a8"; "e8"; "h8"])) as (_ & _ & _ & H & Hw).
    apply H; [by_compute | by_compute | apply Hw; by_compute].
Defined.

(** ** The controller *)

Section controller.

Context {Board Move : Type}.
Variable initial_board : Board.
Variable from_uci : string → option Move.
Variable is_legal : Board → Move → bool.
Variable push : Board → Move → Board.
Variable is_checkmate : Board → bool.
Variable color_at : Board → nat → option Color.
Variable fen : Board → string.
Variable get_best_move_time : string → option string.

Local Abbreviation Brain := (@ChessBrain Board).
Local Abbreviation process :=
  (process_move from_uci is_legal push is_checkmate color_at fen get_best_move_time).
Local Abbreviation start :=
  (start_game initial_board from_uci is_legal push is_checkmate color_at fen
              get_best_move_time).
Local Abbreviation best_move :=
  (_get_best_move from_uci is_legal push is_checkmate fen get_best_move_time).
Local Abbreviation snapshot := (_get_piece_snapshot color_at).
Local Abbreviation submit :=
  (submit_all from_uci is_legal push is_checkmate color_at fen get_best_move_time).

Implicit Types self : Brain.

(** *** Board snapshots *)

Lemma square_name_inj i j :
  i < 64 → j < 64 → square_name i = square_name j → i = j.
Proof.
  intros Hi Hj.
  assert (Forall (λ i, Forall (λ j, square_name i = square_name j → i = j) (seq 0 64))
                 (seq 0 64)) as H by by_compute.
  rewrite Forall_forall in H. specialize (H i).
  rewrite Forall_forall in H. apply H; apply elem_of_seq; lia.
Qed.

Lemma elem_of_piece_map b square color :
  (square, color) ∈ piece_map color_at b ↔ square < 64 ∧ color_at b square = Some color.
Proof.
  unfold piece_map. rewrite list_elem_of_omap. split.
  - intros (sq & Hsq & Hc). rewrite elem_of_reverse, elem_of_seq in Hsq.
    destruct (color_at b sq) eqn:E; simplify_eq/=. split; [lia|done].
  - intros [Hlt Hc]. exists square. rewrite elem_of_reverse, elem_of_seq, Hc.
    split; [lia|done].
Qed.

Lemma snapshot_loop_spec items w b :
  snapshot_loop items w b =
    (w ++ ((square_name ∘ fst) <$> filter (λ it, it.2 = WHITE) items),
     b ++ ((square_name ∘ fst) <$> filter (λ it, it.2 ≠ WHITE) items)).
Proof.
  revert w b. induction items as [|[square color] items IH]; intros w b; simpl.
  - by rewrite !app_nil_r.
  - rewrite !filter_cons. simpl. case_decide as Hc.
    + rewrite IH, decide_False by naive_solver. by rewrite <- app_assoc.
    + rewrite IH, decide_True by done. by rewrite <- app_assoc.
Qed.

Lemma elem_of_snapshot_white self sq :
  sq ∈ white (snapshot self) ↔
  ∃ square, sq = square_name square ∧ square < 64
            ∧ color_at (board self) square = Some WHITE.
Proof.
  unfold _get_piece_snapshot. rewrite snapshot_loop_spec. simpl.
  rewrite sorted_Permutation, list_elem_of_fmap. split.
  - intros ([square color] & -> & [Hc Hin%elem_of_piece_map]%list_elem_of_filter).
    simpl in *. subst. by exists square.
  - intros (square & -> & Hlt & Hc). exists (square, WHITE). split; [done|].
    apply list_elem_of_filter. split; [done|]. by apply elem_of_piece_map.
Qed.

Lemma elem_of_snapshot_black self sq :
  sq ∈ black (snapshot self) ↔
  ∃ square, sq = square_name square ∧ square < 64
            ∧ color_at (board self) square = Some BLACK.
Proof.
  unfold _get_piece_snapshot. rewrite snapshot_loop_spec. simpl.
  rewrite sorted_Permutation, list_elem_of_fmap. split.
  - intros ([square color] & -> & [Hc Hin%elem_of_piece_map]%list_elem_of_filter).
    simpl in *. destruct color; [done|]. by exists square.
  - intros (square & -> & Hlt & Hc). exists (square, BLACK). split; [done|].
    apply list_elem_of_filter. split; [done|]. by apply elem_of_piece_map.
Qed.

Lemma snapshot_disjoint self : disjoint_colors (snapshot self).
Proof.
  intros sq [(i & -> & Hi & Hw)%elem_of_snapshot_white
               (j & Hij & Hj & Hb)%elem_of_snapshot_black].
  apply square_name_inj in Hij; [|done..]. congruence.
Qed.

(** *** The guard against drastic changes *)

Lemma is_drastic_change_true new_pos current_pos :
  (size (removed (white current_pos) (white new_pos))
   + size (removed (black current_pos) (black new_pos)) = 1
   ∧ size (added (white current_pos) (white new_pos))
     + size (added (black current_pos) (black new_pos)) = 2)
  ∨ (Z.abs (Z.of_nat (piece_count current_pos) - Z.of_nat (piece_count new_pos)) > 2)%Z →
  _is_drastic_change new_pos (Some current_pos) = true.
Proof.
  unfold removed, added, piece_count, _is_drastic_change.
  intros [[-> ->] | H]; [done|].
  destruct (_ && _); [done|]. by apply bool_decide_eq_true_2.
Qed.

(** *** The slow path *)

Lemma process_snapshot_path self incoming positions :
  game_active self = true →
  _is_uci_move incoming = false →
  _parse_positions incoming = Some positions →
  positions = snapshot self
  ∨ _is_drastic_change positions (Some (snapshot self)) = true
  ∨ _deduce_move_from_snapshot positions (snapshot self) = None →
  process self incoming = (self, Return EmptyString).
Proof.
  intros Ha Hu Hp H. unfold process_move. rewrite Ha, Hu, Hp. cbn [negb].
  cbv beta iota zeta.
  case_decide; [done|]. destruct H as [? | [-> | ->]]; [done..|].
  by case_match.
Qed.

Lemma deduce_nothing_added new_pos current_pos :
  added (white current_pos) (white new_pos) = ∅ →
  added (black current_pos) (black new_pos) = ∅ →
  _deduce_move_from_snapshot new_pos current_pos = None.
Proof.
  unfold added, _deduce_move_from_snapshot. intros -> ->.
  rewrite !(bool_decide_eq_false_2 (∅ = {[_; _]}))
    by (by apply pattern_ne; vm_compute).
  rewrite size_empty, !(bool_decide_eq_false_2 (0 = 1)) by done.
  by rewrite ?andb_false_r.
Qed.

(** C2.  In an active session, an input that takes the snapshot path and
    parses to a snapshot whose delta against the snapshot of the board has
    one removed square and two added squares in total (however split
    between the colours), or whose number of pieces differs from the
    board's by more than two, gives the empty result and leaves the whole
    session as it was; the move inferencer and the legality test are
    never reached. *)
Theorem drastic_change_rejected self incoming positions :
  game_active self = true →
  _is_uci_move incoming = false →
  _parse_positions incoming = Some positions →
  (size (removed (white (snapshot self)) (white positions))
   + size (removed (black (snapshot self)) (black positions)) = 1
   ∧ size (added (white (snapshot self)) (white positions))
     + size (added (black (snapshot self)) (black positions)) = 2)
  ∨ (Z.abs (Z.of_nat (piece_count (snapshot self))
            - Z.of_nat (piece_count positions)) > 2)%Z →
  process self incoming = (self, Return EmptyString).
Proof.
  intros Ha Hu Hp Hd. apply (process_snapshot_path _ _ positions); [done..|].
  right. left. by apply is_drastic_change_true.
Qed.

(** C4.  In an active session, an input that takes the snapshot path and
    parses to the occupancy snapshot of the current board gives the empty
    result and leaves the board, the activity flag and the stored snapshot
    as they were.  In particular this holds in the session that any
    earlier submission has left, for the snapshot of the board it left. *)
Theorem resubmitted_snapshot_ignored self incoming :
  (game_active self = true →
   _is_uci_move incoming = false →
   _parse_positions incoming = Some (snapshot self) →
   process self incoming = (self, Return EmptyString))
  ∧ (∀ earlier,
       let self' := (process self earlier).1 in
       game_active self' = true →
       _is_uci_move incoming = false →
       _parse_positions incoming = Some (snapshot self') →
       process self' incoming = (self', Return EmptyString)).
Proof.
  split; [|intros earlier self']; intros Ha Hu Hp;
    apply (process_snapshot_path _ _ _ Ha Hu Hp); by left.
Qed.

(** C5, as the code has it.  In an active session an input of coordinate
    shape (four characters, or five with a promotion letter, all in range,
    once trimmed and lower-cased) that is no move, or is a move that is
    illegal in the current position, gives "Invalid" and leaves the session
    as it was.  An input that is not of coordinate shape is never answered
    "Invalid" on that account: it takes the snapshot path, and when it
    holds no valid square of either colour (as a malformed coordinate move
    does) the result is the empty text, the session again unchanged. *)
Theorem invalid_only_for_coordinate_shape self incoming :
  game_active self = true →
  (_is_uci_move incoming = true →
   from_uci (Py.lower (Py.strip incoming)) = None
   ∨ (∃ move, from_uci (Py.lower (Py.strip incoming)) = Some move
              ∧ is_legal (board self) move = false) →
   process self incoming = (self, Return "Invalid"))
  ∧ (_is_uci_move incoming = false →
     _parse_positions incoming = Some (mkSnapshot [] []) →
     process self incoming = (self, Return EmptyString)).
Proof.
  intros Ha. split.
  - intros Hu H. unfold process_move. rewrite Ha, Hu. cbn [negb].
    destruct H as [-> | (move & -> & ->)]; done.
  - intros Hu Hp. apply (process_snapshot_path _ _ _ Ha Hu Hp).
    right. right. apply deduce_nothing_added; unfold added; cbn [white black list_to_set foldr];
      apply empty_difference_L.
Qed.

(** C6.  While the activity flag is false every submission, whatever the
    input, gives "Game Over" and changes nothing; so does every further
    submission, since the session is the same.  Only [start_game] sets the
    flag again: with a valid colour it leaves an active session, unless
    the engine's own first move (when it plays white) is checkmate. *)
Theorem inactive_session_is_terminal self :
  game_active self = false →
  (∀ incoming, process self incoming = (self, Return "Game Over"))
  ∧ (∀ inputs,
       submit self inputs = (self, replicate (length inputs) (Return "Game Over")))
  ∧ (∀ color, Py.lower (Py.strip color) ∈ ["white"; "black"] →
       let self' := (start self color).1 in
       game_active self' = true ∨ is_checkmate (board self') = true).
Proof.
  intros Ha.
  assert (∀ incoming, process self incoming = (self, Return "Game Over")) as H1.
  { intros incoming. unfold process_move. by rewrite Ha. }
  split; [done|]. split.
  - induction inputs as [|incoming inputs IH]; [done|].
    cbn [submit_all]. by rewrite H1, IH.
  - intros color Hc. unfold start_game.
    rewrite (bool_decide_eq_true_2 _ Hc). cbn [negb].
    case_decide; [|by left]. unfold _get_best_move. cbn [board].
    repeat case_match; simplify_eq/=; auto.
Qed.

(** *** The fast path *)

Local Abbreviation record := (push_and_record push color_at).

(** C1, as the code has it.  In an active session a coordinate-notation
    input that denotes a move legal in the current position is applied to
    the board (and the stored snapshot refreshed).  If the move gives
    checkmate the session is deactivated and the result is empty.
    Otherwise the engine is asked: when it has a reply that is legal in the
    new position, that reply is applied too and its notation is returned;
    when it has no reply (as in a stalemate), an empty reply or an illegal
    one, the result is empty although the move was legal and gave no
    checkmate. *)
Theorem legal_move_applied self incoming move :
  game_active self = true →
  _is_uci_move incoming = true →
  from_uci (Py.lower (Py.strip incoming)) = Some move →
  is_legal (board self) move = true →
  let self1 := record self move in
  let asked := get_best_move_time (fen (board self1)) in
  board self1 = push (board self) move
  ∧ (is_checkmate (board self1) = true →
     process self incoming = (set_game_active self1 false, Return EmptyString))
  ∧ (is_checkmate (board self1) = false →
     (∀ reply move',
        asked = Some reply → reply ≠ EmptyString →
        from_uci reply = Some move' → is_legal (board self1) move' = true →
        let self2 := set_board self1 (push (board self1) move') in
        process self incoming =
          (if is_checkmate (board self2) then set_game_active self2 false else self2,
           Return reply))
     ∧ (asked = None ∨ asked = Some EmptyString
        ∨ (∃ reply move', asked = Some reply ∧ from_uci reply = Some move'
                          ∧ is_legal (board self1) move' = false) →
        process self incoming = (self1, Return EmptyString))).
Proof.
  intros Ha Hu Hm Hl self1 asked. split; [done|].
  unfold process_move. rewrite Ha, Hu, Hm, Hl. cbn [negb]. fold self1.
  unfold after_push. split; [by intros ->|]. intros ->.
  unfold _get_best_move. fold asked. split.
  - intros reply move' -> Hne Hr Hl'. rewrite decide_False by done.
    by rewrite Hr, Hl'.
  - intros [-> | [-> | (reply & move' & -> & Hr & Hl')]]; [done..|].
    case_decide; [done|]. by rewrite Hr, Hl'.
Qed.

(** *** Stored snapshots *)

Lemma best_move_keeps_snapshot self :
  last_position_snapshot (best_move self).1 = last_position_snapshot self.
Proof. unfold _get_best_move. by repeat case_match. Qed.

Lemma after_push_keeps_snapshot guarded self :
  last_position_snapshot
    (after_push from_uci is_legal push is_checkmate fen get_best_move_time guarded self).1
  = last_position_snapshot self.
Proof.
  unfold after_push. case_match; [done|].
  pose proof (best_move_keeps_snapshot self) as Hk.
  by destruct (best_move self) as [self' [r|]].
Qed.

Lemma record_stored_disjoint self move : stored_disjoint (record self move).
Proof. apply snapshot_disjoint. Qed.

Lemma process_stored_disjoint self incoming :
  stored_disjoint self → stored_disjoint (process self incoming).1.
Proof.
  intros H. unfold process_move, stored_disjoint.
  repeat case_match; try done;
    rewrite after_push_keeps_snapshot; apply snapshot_disjoint.
Qed.

Lemma start_stored_disjoint self color :
  stored_disjoint self → stored_disjoint (start self color).1.
Proof.
  intros H. unfold start_game, stored_disjoint.
  destruct (negb _); [done|].
  destruct (decide (_ = WHITE)); [|apply snapshot_disjoint].
  match goal with |- context [best_move ?s] =>
    pose proof (best_move_keeps_snapshot s) as Hk;
    destruct (best_move s) as [self' [r|]] end;
    simpl in *; rewrite Hk; apply snapshot_disjoint.
Qed.

(** C7, as the code has it.  Every snapshot taken of a board has each
    square in at most one of its two lists, and so has every snapshot a
    session stores: none is stored at creation, and [start_game] and
    [process_move] store only snapshots of the board.  (The parser does not
    keep the colours apart; see the counterexample.) *)
Theorem board_snapshots_disjoint self :
  disjoint_colors (snapshot self)
  ∧ stored_disjoint (new_brain initial_board)
  ∧ (∀ incoming, stored_disjoint self → stored_disjoint (process self incoming).1)
  ∧ (∀ color, stored_disjoint self → stored_disjoint (start self color).1).
Proof.
  split; [apply snapshot_disjoint|]. split; [done|].
  split; [apply process_stored_disjoint | apply start_stored_disjoint].
Qed.

End controller.


(** ** Concrete sessions

    The statements above at concrete inputs, over the rules and the engine
    of [Module Chess]. *)

Module Sessions.

Import Chess.

(** The session after [start_game("black")]: the initial position, the
    other side to open. *)
Definition opening : Brain := session "black" [].

(** The session after e2e3 and the reply a7a5. *)
Definition after_e2e3 : Brain :=
  let self1 := push_and_record push color_at opening (mkMove 12 20 None) in
  set_board self1 (push (board self1) (mkMove 48 32 None)).

(** The session after the nine moves of [nine_moves] and their replies:
    white to move; the stored snapshot is the one taken after white's
    ninth move, before the reply. *)
Definition before_stalemate : Brain :=
  mkBrain (mkBoard (parse_placement "2Q2bnr/4p1pq/5pkr/7p/7P/4P3/PPPP1PP1/RNB1KBNR")
                   WHITE [0; 7] None 1 10)
          (Some BLACK) true
          (Some (mkSnapshot
                   ["a1"; "a2"; "b1"; "b2"; "c1"; "c2"; "c8"; "d2"; "e1"; "e3";
                    "f1"; "f2"; "g1"; "g2"; "h1"; "h4"]
                   ["e7"; "f6"; "f7"; "f8"; "g7"; "g8"; "h5"; "h6"; "h7"; "h8"]))
          false.

(** The session after the tenth move, c8e6. *)
Definition stalemated : Brain :=
  push_and_record push color_at before_stalemate (mkMove 58 44 None).

(** The starting position with the e-pawn on e4 and a stray piece on e3. *)
Definition one_gone_two_new : string :=
  "white:a1,a2,b1,b2,c1,c2,d1,d2,e1,e3,e4,f1,f2,g1,g2,h1,h2;black:a7,a8,b7,b8,c7,c8,d7,d8,e7,e8,f7,f8,g7,g8,h7,h8".

(** The starting position. *)
Definition starting_position : string :=
  "white:a1,a2,b1,b2,c1,c2,d1,d2,e1,e2,f1,f2,g1,g2,h1,h2 black:a7,a8,b7,b8,c7,c8,d7,d8,e7,e8,f7,f8,g7,g8,h7,h8".

(** The rules of [Module Chess] count the moves of the standard test
    positions right. *)
Example perft_initial : perft 2 initial_board = 400.
Proof. vm_compute. reflexivity. Qed.

Example perft_castling_and_pins :
  perft 1 (mkBoard (parse_placement
                      "r3k2r/p1ppqpb1/bn2pnp1/3PN3/1p2P3/2N2Q1p/PPPBBPPP/R3K2R")
                   WHITE [0; 7; 56; 63] None 0 1) = 48.
Proof. vm_compute. reflexivity. Qed.

Example perft_promotions :
  perft 2 (mkBoard (parse_placement
                      "r3k2r/Pppp1ppp/1b3nbN/nP6/BBP1P3/q4N2/Pp1P2PP/R2Q1RK1")
                   WHITE [56; 63] None 0 1) = 264.
Proof. vm_compute. reflexivity. Qed.

Example opening_position :
  fen (board opening) = "rnbqkbnr/pppppppp/8/8/8/8/PPPPPPPP/RNBQKBNR w KQkq - 0 1"
  ∧ game_active opening = true ∧ app_color opening = Some BLACK.
Proof. vm_compute. done. Qed.

Example after_e2e3_position :
  fen (board after_e2e3) = "rnbqkbnr/1ppppppp/8/p7/8/4P3/PPPP1PPP/RNBQKBNR w KQkq - 0 2".
Proof. vm_compute. reflexivity. Qed.

(** [before_stalemate] is reached from [start_game] by the nine moves. *)
Example before_stalemate_reached : session "black" nine_moves = before_stalemate.
Proof. vm_compute. reflexivity. Qed.

Example stalemated_position :
  fen (board stalemated) = "5bnr/4p1pq/4Qpkr/7p/7P/4P3/PPPP1PP1/RNB1KBNR b KQ - 2 10"
  ∧ legal_moves (board stalemated) = []
  ∧ in_check (board stalemated) BLACK = false.
Proof. vm_compute. done. Qed.

(** The first move of the game: e2e3 is applied and a7a5 is the reply. *)
Lemma legal_move_applied_witness :
  process_move opening "e2e3" = (after_e2e3, Return "a7a5").
Proof.
  pose proof (legal_move_applied from_uci is_legal push is_checkmate color_at fen
                engine opening "e2e3" (mkMove 12 20 None)) as H.
  destruct H as (_ & _ & H); [vm_compute; reflexivity..|].
  destruct H as [H _]; [vm_compute; reflexivity|].
  specialize (H "a7a5" (mkMove 48 32 None)).
  etransitivity;
    [apply H; [vm_compute; reflexivity | discriminate | vm_compute; reflexivity..]|].
  assert (is_checkmate (board after_e2e3) = false) as Hc by (vm_compute; reflexivity).
  unfold after_e2e3 in *. cbv zeta in *. rewrite Hc. reflexivity.
Defined.

(** C1 as stated fails.  After the nine moves of the game, c8e6 is a legal
    move for white, it is applied, it does not give checkmate (black is
    stalemated, and the engine has no reply), and the result is empty. *)
Lemma stalemate_counterexample :
  game_active before_stalemate = true
  ∧ _is_uci_move "c8e6" = true
  ∧ from_uci (Py.lower (Py.strip "c8e6")) = Some (mkMove 58 44 None)
  ∧ is_legal (board before_stalemate) (mkMove 58 44 None) = true
  ∧ is_checkmate (board stalemated) = false
  ∧ process_move before_stalemate "c8e6" = (stalemated, Return EmptyString).
Proof. vm_compute. done. Qed.

Lemma drastic_change_rejected_witness :
  process_move opening one_gone_two_new = (opening, Return EmptyString)
  ∧ process_move opening "white:a1" = (opening, Return EmptyString).
Proof.
  split.
  - apply (drastic_change_rejected from_uci is_legal push is_checkmate color_at fen
             engine opening one_gone_two_new
             (mkSnapshot
                ["a1"; "a2"; "b1"; "b2"; "c1"; "c2"; "d1"; "d2"; "e1"; "e3"; "e4";
                 "f1"; "f2"; "g1"; "g2"; "h1"; "h2"]
                ["a7"; "a8"; "b7"; "b8"; "c7"; "c8"; "d7"; "d8"; "e7"; "e8";
                 "f7"; "f8"; "g7"; "g8"; "h7"; "h8"]));
      [vm_compute; reflexivity..|].
    left. split; vm_compute; reflexivity.
  - apply (drastic_change_rejected from_uci is_legal push is_checkmate color_at fen
             engine opening "white:a1" (mkSnapshot ["a1"] []));
      [vm_compute; reflexivity..|].
    right. vm_compute. reflexivity.
Defined.

Lemma resubmitted_snapshot_ignored_witness :
  process_move opening starting_position = (opening, Return EmptyString).
Proof.
  apply (resubmitted_snapshot_ignored from_uci is_legal push is_checkmate color_at fen
           engine opening starting_position); vm_compute; reflexivity.
Defined.

Lemma invalid_only_for_coordinate_shape_witness :
  process_move opening "e2e5" = (opening, Return "Invalid")
  ∧ process_move opening "e2e2" = (opening, Return "Invalid")
  ∧ process_move opening "e2e9" = (opening, Return EmptyString).
Proof.
  split; [|split].
  - apply (invalid_only_for_coordinate_shape from_uci is_legal push is_checkmate
             color_at fen engine opening "e2e5"); [vm_compute; reflexivity..|].
    right. exists (mkMove 12 36 None). split; vm_compute; reflexivity.
  - apply (invalid_only_for_coordinate_shape from_uci is_legal push is_checkmate
             color_at fen engine opening "e2e2"); [vm_compute; reflexivity..|].
    left. vm_compute. reflexivity.
  - apply (invalid_only_for_coordinate_shape from_uci is_legal push is_checkmate
             color_at fen engine opening "e2e9"); vm_compute; reflexivity.
Defined.

(** C5 as stated fails for malformed coordinate moves: e2e9 names no
    square of the board, and the answer is the empty text, not "Invalid". *)
Lemma malformed_move_counterexample :
  game_active opening = true
  ∧ _is_uci_move "e2e9" = false
  ∧ (process_move opening "e2e9").2 = Return EmptyString
  ∧ (process_move opening "e2e9").2 ≠ Return "Invalid".
Proof. repeat split; vm_compute; [reflexivity..|discriminate]. Qed.

Lemma inactive_session_is_terminal_witness :
  submit_all from_uci is_legal push is_checkmate color_at fen engine
             (new_brain initial_board) ["e2e4"; starting_position; "junk"]
  = (new_brain initial_board,
     [Return "Game Over"; Return "Game Over"; Return "Game Over"]).
Proof.
  apply (inactive_session_is_terminal initial_board from_uci is_legal push
           is_checkmate color_at fen engine (new_brain initial_board)).
  reflexivity.
Defined.

Lemma board_snapshots_disjoint_witness :
  disjoint_colors (_get_piece_snapshot opening)
  ∧ stored_disjoint (process_move opening "e2e3").1.
Proof.
  pose proof (board_snapshots_disjoint initial_board from_uci is_legal push
                is_checkmate color_at fen engine opening) as (H1 & _ & H2 & _).
  split; [exact H1|]. apply H2.
  exact (proj1 (board_snapshots_disjoint initial_board from_uci is_legal push
                  is_checkmate color_at fen engine
                  (start_game (new_brain initial_board) "black").1)).
Defined.

End Sessions.


(** * Further properties of the code *)

(** ** Vocabulary *)

(** No character of the text is whitespace. *)
Definition no_blank (s : string) : Prop :=
  Forall (λ c, Py.isspace c = false) (list_ascii_of_string s).

(** [incoming.strip().lower()]: the form under which [process_move] and its
    helpers read an input. *)
Definition normal (s : string) : string := Py.lower (Py.strip s).

(** ** Trimming and lower-casing *)

Lemma isspace_lower_char c : Py.isspace (Py.lower_char c) = Py.isspace c.
Proof. by destruct c as [[] [] [] [] [] [] [] []]. Qed.

Lemma lower_char_idemp c : Py.lower_char (Py.lower_char c) = Py.lower_char c.
Proof. by destruct c as [[] [] [] [] [] [] [] []]. Qed.

Lemma lower_idemp s : Py.lower (Py.lower s) = Py.lower s.
Proof. induction s as [|c s IH]; simpl; [done|]. by rewrite lower_char_idemp, IH. Qed.

Lemma lstrip_lower s : Py.lstrip (Py.lower s) = Py.lower (Py.lstrip s).
Proof.
  induction s as [|c s IH]; simpl; [done|].
  rewrite isspace_lower_char. by destruct (Py.isspace c).
Qed.

Lemma rstrip_lower s : Py.rstrip (Py.lower s) = Py.lower (Py.rstrip s).
Proof.
  induction s as [|c s IH]; simpl; [done|].
  rewrite IH, isspace_lower_char.
  destruct (Py.rstrip s); simpl; [by destruct (Py.isspace c)|done].
Qed.

Lemma strip_lower s : Py.strip (Py.lower s) = Py.lower (Py.strip s).
Proof. unfold Py.strip. by rewrite lstrip_lower, rstrip_lower. Qed.

Lemma rstrip_unfold c s :
  Py.rstrip (String c s) =
    match Py.rstrip s with
    | EmptyString => if Py.isspace c then EmptyString else String c EmptyString
    | r => String c r
    end.
Proof. done. Qed.

Lemma rstrip_idemp s : Py.rstrip (Py.rstrip s) = Py.rstrip s.
Proof.
  induction s as [|c s IH]; [done|]. rewrite rstrip_unfold.
  destruct (Py.rstrip s) as [|d r] eqn:E.
  - destruct (Py.isspace c) eqn:Ec; [done|]. by rewrite rstrip_unfold, Ec.
  - by rewrite rstrip_unfold, IH.
Qed.

Lemma rstrip_cons c s :
  Py.isspace c = false → Py.rstrip (String c s) = String c (Py.rstrip s).
Proof. intros Hc. simpl. rewrite Hc. by destruct (Py.rstrip s). Qed.

Lemma lstrip_cases s :
  Py.lstrip s = EmptyString
  ∨ ∃ c s', Py.lstrip s = String c s' ∧ Py.isspace c = false.
Proof.
  induction s as [|c s IH]; simpl; [by left|].
  destruct (Py.isspace c) eqn:Ec; [done|]. right. by exists c, s.
Qed.

Lemma strip_idemp s : Py.strip (Py.strip s) = Py.strip s.
Proof.
  unfold Py.strip. destruct (lstrip_cases s) as [-> | (c & s' & -> & Hc)]; [done|].
  rewrite (rstrip_cons _ _ Hc). cbn [Py.lstrip]. rewrite Hc.
  by rewrite <- (rstrip_cons _ _ Hc), rstrip_idemp.
Qed.

Lemma normal_idemp s : normal (normal s) = normal s.
Proof. unfold normal. by rewrite strip_lower, lower_idemp, strip_idemp. Qed.

Lemma normal_strip s : normal (Py.strip s) = normal s.
Proof. unfold normal. by rewrite strip_idemp. Qed.

Lemma normal_lower s : normal (Py.lower s) = normal s.
Proof. unfold normal. by rewrite strip_lower, lower_idemp. Qed.

(** [_is_uci_move] and [_parse_positions] read their argument through
    [normal] only. *)
Lemma is_uci_move_normal a b : normal a = normal b → _is_uci_move a = _is_uci_move b.
Proof. unfold _is_uci_move, normal. by intros ->. Qed.

Lemma parse_positions_normal a b :
  normal a = normal b → _parse_positions a = _parse_positions b.
Proof. unfold _parse_positions, normal. by intros ->. Qed.

Lemma rstrip_no_blank s : no_blank s → Py.rstrip s = s.
Proof.
  unfold no_blank. induction s as [|c s IH]; simpl; [done|].
  intros [Hc Hs]%Forall_cons. rewrite (IH Hs), Hc. by destruct s.
Qed.

Lemma strip_no_blank s : no_blank s → Py.strip s = s.
Proof.
  intros H. unfold Py.strip.
  replace (Py.lstrip s) with s; [by apply rstrip_no_blank|].
  destruct s as [|c s]; [done|]. apply Forall_cons in H as [Hc _]. simpl. by rewrite Hc.
Qed.

Lemma split_ws_no_blank s : no_blank s → s ≠ EmptyString → Py.split_ws s = [s].
Proof.
  unfold no_blank. induction s as [|c s IH]; [done|].
  intros [Hc Hs]%Forall_cons _. simpl. rewrite Hc.
  destruct s as [|c' s]; [done|].
  rewrite (proj1 (Forall_cons_1 _ _ _ Hs)). by rewrite IH.
Qed.

Lemma contains_false sep s :
  Forall (λ c, c ≠ sep) (list_ascii_of_string s) → Py.contains sep s = false.
Proof.
  induction s as [|c s IH]; simpl; [done|].
  intros [Hc Hs]%Forall_cons. by rewrite decide_False, IH.
Qed.

Lemma startswith_short p s :
  String.length s < String.length p → Py.startswith p s = false.
Proof.
  unfold Py.startswith. revert s.
  induction p as [|a p IH]; intros [|b s]; simpl; try lia; try done.
  intros H. destruct (ascii_dec a b); [|done]. apply IH. lia.
Qed.

Lemma char_in_elem c chars :
  Py.char_in c chars = true → c ∈ list_ascii_of_string chars.
Proof.
  unfold Py.char_in. induction chars as [|d chars IH]; simpl; [done|].
  case_decide as Hd; [subst; intros _; apply list_elem_of_here|].
  intros Hc. apply list_elem_of_further, IH, Hc.
Qed.

(** A character of a coordinate move is no whitespace and no semicolon. *)
Lemma coordinate_char c chars :
  chars ∈ ["abcdefgh"; "12345678"; "qnrb"] → Py.char_in c chars = true →
  Py.isspace c = false ∧ c ≠ ";"%char.
Proof.
  intros Hs Hc%char_in_elem. revert c Hc. apply Forall_forall.
  revert chars Hs. apply Forall_forall. by_compute.
Qed.

Lemma elem_char_in c chars :
  c ∈ list_ascii_of_string chars → Py.char_in c chars = true.
Proof.
  unfold Py.char_in. induction chars as [|d chars IH]; simpl; [by intros ?%elem_of_nil|].
  intros [-> | H]%elem_of_cons; [by rewrite decide_True|].
  case_decide; [done|]. by apply IH.
Qed.

(** The 64 coordinates are a file letter followed by a rank digit. *)
Lemma elem_of_valid_squares sq :
  sq ∈ valid_squares ↔
  ∃ file rank, sq = String file (String rank EmptyString)
               ∧ Py.char_in file "abcdefgh" = true ∧ Py.char_in rank "12345678" = true.
Proof.
  unfold valid_squares. rewrite elem_of_list_to_set, list_elem_of_bind. split.
  - intros (file & (rank & ->%list_elem_of_singleton & Hr)%list_elem_of_bind & Hf).
    exists file, rank. by rewrite !elem_char_in.
  - intros (file & rank & -> & Hf%char_in_elem & Hr%char_in_elem).
    exists file. split; [|done]. apply list_elem_of_bind. exists rank.
    split; [apply list_elem_of_here|done].
Qed.

(** A character of a coordinate move is lower-case. *)
Lemma coordinate_char_lower c chars :
  chars ∈ ["abcdefgh"; "12345678"; "qnrb"] → Py.char_in c chars = true →
  Py.lower_char c = c.
Proof.
  intros Hs Hc%char_in_elem. revert c Hc. apply Forall_forall.
  revert chars Hs. apply Forall_forall. by_compute.
Qed.

(** The texts of coordinate shape: two squares, and possibly one of the
    promotion letters q, n, r, b. *)
Definition coordinate_text (t : string) : Prop :=
  ∃ src dst, src ∈ valid_squares ∧ dst ∈ valid_squares
    ∧ (t = (src ++ dst)%string
       ∨ ∃ p, Py.char_in p "qnrb" = true ∧ t = (src ++ dst ++ String p EmptyString)%string).

Lemma coordinate_text_chars t :
  coordinate_text t ↔
  ∃ f1 r1 f2 r2 rest,
    t = String f1 (String r1 (String f2 (String r2 rest)))
    ∧ Py.char_in f1 "abcdefgh" = true ∧ Py.char_in r1 "12345678" = true
    ∧ Py.char_in f2 "abcdefgh" = true ∧ Py.char_in r2 "12345678" = true
    ∧ (rest = EmptyString ∨ ∃ p, Py.char_in p "qnrb" = true ∧ rest = String p EmptyString).
Proof.
  unfold coordinate_text. split.
  - intros (src & dst & (f1 & r1 & -> & ? & ?)%elem_of_valid_squares
              & (f2 & r2 & -> & ? & ?)%elem_of_valid_squares & Ht).
    destruct Ht as [-> | (p & ? & ->)].
    + exists f1, r1, f2, r2, EmptyString. repeat split; try done. by left.
    + exists f1, r1, f2, r2, (String p EmptyString). repeat split; try done.
      right. by exists p.
  - intros (f1 & r1 & f2 & r2 & rest & -> & ? & ? & ? & ? & Hrest).
    exists (String f1 (String r1 EmptyString)), (String f2 (String r2 EmptyString)).
    split; [apply elem_of_valid_squares; by exists f1, r1|].
    split; [apply elem_of_valid_squares; by exists f2, r2|].
    destruct Hrest as [-> | (p & ? & ->)]; [by left|]. right. by exists p.
Qed.

Lemma is_uci_move_chars t :
  (if bool_decide (String.length t = 4%nat)
      && char_at_in t 0 "abcdefgh" && char_at_in t 1 "12345678"
      && char_at_in t 2 "abcdefgh" && char_at_in t 3 "12345678"
   then true
   else if bool_decide (String.length t = 5%nat)
      && char_at_in t 0 "abcdefgh" && char_at_in t 1 "12345678"
      && char_at_in t 2 "abcdefgh" && char_at_in t 3 "12345678"
      && char_at_in t 4 "qnrb"
   then true else false) = true
  ↔ coordinate_text t.
Proof.
  rewrite coordinate_text_chars. unfold char_at_in. split.
  - intros H.
    destruct t as [|c0 [|c1 [|c2 [|c3 [|c4 [|c5 t]]]]]]; try done;
      cbn -[Py.char_in] in H.
    + exists c0, c1, c2, c3, EmptyString.
      destruct (Py.char_in c0 _), (Py.char_in c1 _), (Py.char_in c2 _),
        (Py.char_in c3 _); try done. repeat split; by left.
    + exists c0, c1, c2, c3, (String c4 EmptyString).
      destruct (Py.char_in c0 _), (Py.char_in c1 _), (Py.char_in c2 _),
        (Py.char_in c3 _), (Py.char_in c4 "qnrb") eqn:E4; try done.
      repeat split; right; by exists c4.
  - intros (f1 & r1 & f2 & r2 & rest & -> & H1 & H2 & H3 & H4 & Hrest).
    destruct Hrest as [-> | (p & Hp & ->)]; cbn -[Py.char_in];
      by rewrite ?H1, ?H2, ?H3, ?H4, ?Hp.
Qed.

Lemma is_uci_move_coordinate (text : string) :
  _is_uci_move text = true ↔ coordinate_text (normal text).
Proof. unfold _is_uci_move. apply is_uci_move_chars. Qed.

(** [_is_uci_move] accepts exactly the texts that, once trimmed and
    lower-cased, are two squares of the board followed by nothing or by one
    of the letters q, n, r, b. *)
Theorem is_uci_move_iff (text : string) :
  _is_uci_move text = true ↔ coordinate_text (normal text).
Proof. apply is_uci_move_coordinate. Qed.

Lemma coordinate_text_plain t :
  coordinate_text t →
  no_blank t ∧ Forall (λ c, c ≠ ";"%char) (list_ascii_of_string t)
  ∧ Py.lower t = t ∧ (4 ≤ String.length t ≤ 5)%nat.
Proof.
  intros (f1 & r1 & f2 & r2 & rest & -> & H1 & H2 & H3 & H4 & Hrest)%coordinate_text_chars.
  pose proof (coordinate_char f1 "abcdefgh" ltac:(by_compute) H1) as [??].
  pose proof (coordinate_char r1 "12345678" ltac:(by_compute) H2) as [??].
  pose proof (coordinate_char f2 "abcdefgh" ltac:(by_compute) H3) as [??].
  pose proof (coordinate_char r2 "12345678" ltac:(by_compute) H4) as [??].
  pose proof (coordinate_char_lower f1 "abcdefgh" ltac:(by_compute) H1).
  pose proof (coordinate_char_lower r1 "12345678" ltac:(by_compute) H2).
  pose proof (coordinate_char_lower f2 "abcdefgh" ltac:(by_compute) H3).
  pose proof (coordinate_char_lower r2 "12345678" ltac:(by_compute) H4).
  destruct Hrest as [-> | (p & Hp & ->)].
  - unfold no_blank. simpl. repeat split; [| |congruence|lia..];
      repeat (apply List.Forall_cons; [done|]); apply List.Forall_nil.
  - pose proof (coordinate_char p "qnrb" ltac:(by_compute) Hp) as [??].
    pose proof (coordinate_char_lower p "qnrb" ltac:(by_compute) Hp).
    unfold no_blank. simpl. repeat split; [| |congruence|lia..];
      repeat (apply List.Forall_cons; [done|]); apply List.Forall_nil.
Qed.

(** A text of coordinate shape is its own normal form. *)
Lemma coordinate_text_normal t : coordinate_text t → normal t = t.
Proof.
  intros (Hb & _ & Hl & _)%coordinate_text_plain.
  unfold normal. by rewrite (strip_no_blank _ Hb).
Qed.

(** The two kinds of input do not overlap: a text of coordinate shape holds
    no "white:" or "black:" token, and the snapshot parser reads it as the
    empty snapshot. *)
Theorem coordinate_shape_parses_empty (txt : string) :
  _is_uci_move txt = true → _parse_positions txt = Some (mkSnapshot [] []).
Proof.
  intros (Hb & Hsemi & _ & Hlen)%is_uci_move_coordinate%coordinate_text_plain.
  unfold _parse_positions. fold (normal txt).
  unfold parts_of. rewrite (contains_false _ _ Hsemi), split_ws_no_blank; [|done|].
  - simpl. unfold parse_part. rewrite (strip_no_blank _ Hb).
    by rewrite !startswith_short by (simpl; lia).
  - intros E. rewrite E in Hlen. simpl in Hlen. lia.
Qed.

Lemma coordinate_shape_parses_empty_witness :
  _is_uci_move " E2e4 " = true
  ∧ _parse_positions " E2e4 " = Some (mkSnapshot [] []).
Proof.
  split; [vm_compute; reflexivity|].
  apply coordinate_shape_parses_empty. vm_compute. reflexivity.
Defined.

(** ** The move inference, pattern by pattern *)

Section inference_patterns.

Implicit Types X : gset string.

Lemma set_first_singleton (a : string) : set_first {[a]} = a.
Proof. unfold set_first. by rewrite elements_singleton. Qed.

Lemma size_1_singleton X : size X = 1%nat → X = {[set_first X]}.
Proof.
  intros [x Hx%leibniz_equiv]%size_1_elem_of. by rewrite Hx, set_first_singleton.
Qed.

Lemma set_first_elem_of X : size X = 1%nat → set_first X ∈ X.
Proof. intros H. rewrite (size_1_singleton X H) at 2. by apply elem_of_singleton. Qed.

Lemma size_pair (a b : string) : a ≠ b → size ({[a; b]} : gset string) = 2%nat.
Proof.
  intros H. rewrite size_union, !size_singleton; [done|].
  by apply disjoint_singleton_l, not_elem_of_singleton.
Qed.

(** The eight ways in which the inference gives a move. *)
Lemma deduce_Some_inv new_pos current_pos m :
  _deduce_move_from_snapshot new_pos current_pos = Some m →
  let wr := removed (white current_pos) (white new_pos) in
  let wa := added (white current_pos) (white new_pos) in
  let br := removed (black current_pos) (black new_pos) in
  let ba := added (black current_pos) (black new_pos) in
  (wr = {["e1"; "h1"]} ∧ wa = {["g1"; "f1"]} ∧ m = "e1g1") ∨
  (wr = {["e1"; "a1"]} ∧ wa = {["c1"; "d1"]} ∧ m = "e1c1") ∨
  (br = {["e8"; "h8"]} ∧ ba = {["g8"; "f8"]} ∧ m = "e8g8") ∨
  (br = {["e8"; "a8"]} ∧ ba = {["c8"; "d8"]} ∧ m = "e8c8") ∨
  (size wr = 1%nat ∧ size wa = 1%nat ∧ br = ∅ ∧ ba = ∅ ∧
   m = (set_first wr ++ set_first wa)%string) ∨
  (size br = 1%nat ∧ size ba = 1%nat ∧ wr = ∅ ∧ wa = ∅ ∧
   m = (set_first br ++ set_first ba)%string) ∨
  (size wr = 1%nat ∧ size wa = 1%nat ∧ size br = 1%nat ∧ ba = ∅ ∧
   set_first wa ∈ br ∧ m = (set_first wr ++ set_first wa)%string) ∨
  (size br = 1%nat ∧ size ba = 1%nat ∧ size wr = 1%nat ∧ wa = ∅ ∧
   set_first ba ∈ wr ∧ m = (set_first br ++ set_first ba)%string).
Proof.
  unfold _deduce_move_from_snapshot, removed, added. cbv zeta.
  set (wr := list_to_set (white current_pos) ∖ list_to_set (white new_pos)).
  set (wa := list_to_set (white new_pos) ∖ list_to_set (white current_pos)).
  set (br := list_to_set (black current_pos) ∖ list_to_set (black new_pos)).
  set (ba := list_to_set (black new_pos) ∖ list_to_set (black current_pos)).
  clearbody wr wa br ba. intros H.
  repeat match type of H with
    | (if ?b then _ else _) = _ =>
        let E := fresh "E" in
        destruct b eqn:E;
        [ injection H as <-; rewrite ?andb_true_iff, ?bool_decide_eq_true in E;
          clear -E; tauto | clear E ]
    end.
  done.
Qed.

(** The squares of one colour in a snapshot; the other colour. *)
Definition squares_in (c : Color) (s : Snapshot) : list string :=
  match c with WHITE => white s | BLACK => black s end.
Definition opponent (c : Color) : Color :=
  match c with WHITE => BLACK | BLACK => WHITE end.

(** The squares a colour left, and the squares it took, between two
    snapshots. *)
Definition left_by (c : Color) (current_pos new_pos : Snapshot) : gset string :=
  removed (squares_in c current_pos) (squares_in c new_pos).
Definition taken_by (c : Color) (current_pos new_pos : Snapshot) : gset string :=
  added (squares_in c current_pos) (squares_in c new_pos).

(** Every square a snapshot lists is a square of the board. *)
Definition on_board (s : Snapshot) : Prop :=
  Forall (λ sq, sq ∈ valid_squares) (white s ++ black s).

Lemma deduce_in_delta new_pos current_pos m :
  _deduce_move_from_snapshot new_pos current_pos = Some m →
  ∃ c src dst, m = (src ++ dst)%string
    ∧ src ∈ left_by c current_pos new_pos ∧ dst ∈ taken_by c current_pos new_pos.
Proof.
  intros H. apply deduce_Some_inv in H. cbv zeta in H.
  destruct H as [(Hr & Ha & ->)|[(Hr & Ha & ->)|[(Hr & Ha & ->)|[(Hr & Ha & ->)|
    [(Hr & Ha & _ & _ & ->)|[(Hr & Ha & _ & _ & ->)|
    [(Hr & Ha & _ & _ & _ & ->)|(Hr & Ha & _ & _ & _ & ->)]]]]]]].
  - exists WHITE, "e1", "g1". unfold left_by, taken_by. simpl. rewrite Hr, Ha.
    split; [done|]. split; by_compute.
  - exists WHITE, "e1", "c1". unfold left_by, taken_by. simpl. rewrite Hr, Ha.
    split; [done|]. split; by_compute.
  - exists BLACK, "e8", "g8". unfold left_by, taken_by. simpl. rewrite Hr, Ha.
    split; [done|]. split; by_compute.
  - exists BLACK, "e8", "c8". unfold left_by, taken_by. simpl. rewrite Hr, Ha.
    split; [done|]. split; by_compute.
  - exists WHITE. do 2 eexists. split; [done|]. split; by apply set_first_elem_of.
  - exists BLACK. do 2 eexists. split; [done|]. split; by apply set_first_elem_of.
  - exists WHITE. do 2 eexists. split; [done|]. split; by apply set_first_elem_of.
  - exists BLACK. do 2 eexists. split; [done|]. split; by apply set_first_elem_of.
Qed.

(** An inferred move leads from a square that one colour left to a square
    that the same colour took. *)
Theorem inferred_move_in_delta new_pos current_pos m :
  _deduce_move_from_snapshot new_pos current_pos = Some m →
  ∃ c src dst, m = (src ++ dst)%string
    ∧ src ∈ left_by c current_pos new_pos ∧ dst ∈ taken_by c current_pos new_pos.
Proof. apply deduce_in_delta. Qed.

Lemma inferred_move_in_delta_witness :
  _deduce_move_from_snapshot (mkSnapshot ["e4"] ["e7"]) (mkSnapshot ["e2"] ["e7"])
    = Some "e2e4"
  ∧ ∃ c src dst, "e2e4" = (src ++ dst)%string
      ∧ src ∈ left_by c (mkSnapshot ["e2"] ["e7"]) (mkSnapshot ["e4"] ["e7"])
      ∧ dst ∈ taken_by c (mkSnapshot ["e2"] ["e7"]) (mkSnapshot ["e4"] ["e7"]).
Proof.
  split; [vm_compute; reflexivity|].
  apply inferred_move_in_delta. vm_compute. reflexivity.
Defined.

Lemma left_by_elem c current_pos new_pos sq :
  sq ∈ left_by c current_pos new_pos → sq ∈ squares_in c current_pos.
Proof.
  unfold left_by, removed. rewrite elem_of_difference, elem_of_list_to_set. tauto.
Qed.

Lemma taken_by_elem c current_pos new_pos sq :
  sq ∈ taken_by c current_pos new_pos → sq ∈ squares_in c new_pos.
Proof.
  unfold taken_by, added. rewrite elem_of_difference, elem_of_list_to_set. tauto.
Qed.

Lemma on_board_elem c s sq : on_board s → sq ∈ squares_in c s → sq ∈ valid_squares.
Proof.
  unfold on_board. rewrite Forall_forall. intros H Hsq. apply H.
  apply elem_of_app. destruct c; [by left|by right].
Qed.

(** Between snapshots that list squares of the board only, an inferred
    move is a text of four characters, two squares, that [_is_uci_move]
    accepts: never empty and never with a promotion letter. *)
Theorem inferred_move_is_plain_coordinate new_pos current_pos m :
  on_board current_pos → on_board new_pos →
  _deduce_move_from_snapshot new_pos current_pos = Some m →
  String.length m = 4%nat ∧ _is_uci_move m = true
  ∧ ∃ src dst, src ∈ valid_squares ∧ dst ∈ valid_squares ∧ m = (src ++ dst)%string.
Proof.
  intros Hc Hn (c & src & dst & -> & Hs & Hd)%deduce_in_delta.
  apply left_by_elem, (on_board_elem _ _ _ Hc) in Hs.
  apply taken_by_elem, (on_board_elem _ _ _ Hn) in Hd.
  assert (coordinate_text (src ++ dst)%string) as Ht.
  { exists src, dst. split; [done|]. split; [done|]. by left. }
  split; [|split].
  - apply elem_of_valid_squares in Hs as (? & ? & -> & _).
    by apply elem_of_valid_squares in Hd as (? & ? & -> & _).
  - apply is_uci_move_coordinate. by rewrite (coordinate_text_normal _ Ht).
  - by exists src, dst.
Qed.

Lemma inferred_move_is_plain_coordinate_witness :
  on_board (mkSnapshot ["e7"] ["d7"]) ∧ on_board (mkSnapshot ["e8"] ["d7"])
  ∧ _deduce_move_from_snapshot (mkSnapshot ["e8"] ["d7"]) (mkSnapshot ["e7"] ["d7"])
      = Some "e7e8"
  ∧ String.length "e7e8" = 4%nat ∧ _is_uci_move "e7e8" = true.
Proof.
  assert (on_board (mkSnapshot ["e7"] ["d7"])) as Hc by by_compute.
  assert (on_board (mkSnapshot ["e8"] ["d7"])) as Hn by by_compute.
  assert (_deduce_move_from_snapshot (mkSnapshot ["e8"] ["d7"]) (mkSnapshot ["e7"] ["d7"])
          = Some "e7e8") as Hm by (vm_compute; reflexivity).
  split; [exact Hc|]. split; [exact Hn|]. split; [exact Hm|].
  destruct (inferred_move_is_plain_coordinate _ _ _ Hc Hn Hm) as (Hl & Hu & _).
  by split.
Defined.

Lemma singleton_ne_pair (a x y : string) : x ≠ y → ({[a]} : gset string) ≠ {[x; y]}.
Proof.
  intros Hxy H. apply (f_equal size) in H.
  by rewrite size_singleton, size_pair in H.
Qed.

Lemma empty_ne_pair (x y : string) : (∅ : gset string) ≠ {[x; y]}.
Proof.
  intros H. apply (f_equal size) in H. rewrite size_empty in H.
  symmetry in H. apply size_empty_inv in H. set_solver.
Qed.

Lemma singleton_ne_empty (a : string) : ({[a]} : gset string) ≠ ∅.
Proof. intros H. apply (f_equal size) in H. by rewrite size_singleton, size_empty in H. Qed.

Lemma elem_singleton_true (a : string) : bool_decide (a ∈ ({[a]} : gset string)) = true.
Proof. by apply bool_decide_eq_true_2, elem_of_singleton. Qed.

Lemma elem_singleton_false (a b : string) :
  b ≠ a → bool_decide (a ∈ ({[b]} : gset string)) = false.
Proof. intros H. apply bool_decide_eq_false_2. by rewrite elem_of_singleton. Qed.

(** Decide the tests of the inference once the four deltas are known to be
    empty or singletons. *)
Ltac decide_patterns :=
  rewrite ?size_singleton, ?size_empty, ?set_first_singleton;
  repeat (first
    [ rewrite (bool_decide_eq_false_2 ({[_]} = {[_; _]})) by (by apply singleton_ne_pair)
    | rewrite (bool_decide_eq_false_2 (∅ = {[_; _]})) by apply empty_ne_pair
    | rewrite (bool_decide_eq_false_2 ({[_]} = ∅)) by apply singleton_ne_empty
    | rewrite (bool_decide_eq_true_2 (_ = _)) by done
    | rewrite (bool_decide_eq_false_2 (_ = _)) by done
    | rewrite elem_singleton_true
    | rewrite elem_singleton_false by done ]; cbn [andb]).

Lemma deduce_quiet c new_pos current_pos src dst :
  left_by c current_pos new_pos = {[src]} →
  taken_by c current_pos new_pos = {[dst]} →
  left_by (opponent c) current_pos new_pos = ∅ →
  taken_by (opponent c) current_pos new_pos = ∅ →
  _deduce_move_from_snapshot new_pos current_pos = Some (src ++ dst)%string.
Proof.
  unfold left_by, taken_by, removed, added, _deduce_move_from_snapshot.
  destruct c; simpl; intros -> -> -> ->; by decide_patterns.
Qed.

(** A quiet move: one colour left one square and took one square, the other
    colour's squares are as before.  The move from the one to the other is
    inferred. *)
Theorem quiet_move_inferred c new_pos current_pos src dst :
  left_by c current_pos new_pos = {[src]} →
  taken_by c current_pos new_pos = {[dst]} →
  left_by (opponent c) current_pos new_pos = ∅ →
  taken_by (opponent c) current_pos new_pos = ∅ →
  _deduce_move_from_snapshot new_pos current_pos = Some (src ++ dst)%string.
Proof. apply deduce_quiet. Qed.

Lemma quiet_move_inferred_witness :
  _deduce_move_from_snapshot (mkSnapshot ["d2"; "e2"] ["e5"; "g8"])
                             (mkSnapshot ["d2"; "e2"] ["e7"; "g8"]) = Some "e7e5".
Proof.
  apply (quiet_move_inferred BLACK _ _ "e7" "e5"); by_compute.
Defined.

Lemma deduce_capture c new_pos current_pos src dst :
  left_by c current_pos new_pos = {[src]} →
  taken_by c current_pos new_pos = {[dst]} →
  left_by (opponent c) current_pos new_pos = {[dst]} →
  taken_by (opponent c) current_pos new_pos = ∅ →
  _deduce_move_from_snapshot new_pos current_pos = Some (src ++ dst)%string.
Proof.
  unfold left_by, taken_by, removed, added, _deduce_move_from_snapshot.
  destruct c; simpl; intros -> -> -> ->; by decide_patterns.
Qed.

(** A capture: one colour left one square and took one square, on which
    the other colour lost a piece and gained nothing.  The move from the
    one to the other is inferred. *)
Theorem capture_inferred c new_pos current_pos src dst :
  left_by c current_pos new_pos = {[src]} →
  taken_by c current_pos new_pos = {[dst]} →
  left_by (opponent c) current_pos new_pos = {[dst]} →
  taken_by (opponent c) current_pos new_pos = ∅ →
  _deduce_move_from_snapshot new_pos current_pos = Some (src ++ dst)%string.
Proof. apply deduce_capture. Qed.

Lemma capture_inferred_witness :
  _deduce_move_from_snapshot (mkSnapshot ["d2"; "d5"] ["g8"])
                             (mkSnapshot ["d2"; "e4"] ["d5"; "g8"]) = Some "e4d5".
Proof.
  apply (capture_inferred WHITE _ _ "e4" "d5"); by_compute.
Defined.

(** A capture in which the captured piece is not on the square taken, as
    in a capture en passant, is not recognised: no move is inferred. *)
Theorem displaced_capture_not_inferred c new_pos current_pos src dst lost :
  left_by c current_pos new_pos = {[src]} →
  taken_by c current_pos new_pos = {[dst]} →
  left_by (opponent c) current_pos new_pos = {[lost]} →
  taken_by (opponent c) current_pos new_pos = ∅ →
  lost ≠ dst →
  _deduce_move_from_snapshot new_pos current_pos = None.
Proof.
  unfold left_by, taken_by, removed, added, _deduce_move_from_snapshot.
  destruct c; simpl; intros -> -> -> -> Hne; by decide_patterns.
Qed.

Lemma displaced_capture_not_inferred_witness :
  _deduce_move_from_snapshot (mkSnapshot ["d6"; "e1"] ["e8"])
                             (mkSnapshot ["e1"; "e5"] ["d5"; "e8"]) = None.
Proof.
  apply (displaced_capture_not_inferred WHITE _ _ "e5" "d6" "d5"); [by_compute..|done].
Defined.

End inference_patterns.

(** ** The guard, for duplicate-free snapshots *)

(** No square is listed twice for a colour. *)
Definition duplicate_free (s : Snapshot) : Prop := NoDup (white s) ∧ NoDup (black s).

Section guard.

Lemma count_delta (current new : list string) :
  NoDup current → NoDup new →
  (length new + size (removed current new) = length current + size (added current new))%nat.
Proof.
  intros Hc Hn. unfold removed, added.
  rewrite <- (size_list_to_set (C:=gset string) new Hn).
  rewrite <- (size_list_to_set (C:=gset string) current Hc).
  rewrite <- !size_union_alt. f_equal. apply union_comm_L.
Qed.

Lemma is_drastic_change_by_counts new_pos current_pos :
  duplicate_free current_pos → duplicate_free new_pos →
  let total_removed := (size (left_by WHITE current_pos new_pos)
                        + size (left_by BLACK current_pos new_pos))%nat in
  let total_added := (size (taken_by WHITE current_pos new_pos)
                      + size (taken_by BLACK current_pos new_pos))%nat in
  _is_drastic_change new_pos (Some current_pos) = true ↔
  (total_removed = 1 ∧ total_added = 2)%nat
  ∨ (total_removed + 2 < total_added)%nat ∨ (total_added + 2 < total_removed)%nat.
Proof.
  intros [Hcw Hcb] [Hnw Hnb]. cbv zeta. unfold left_by, taken_by. simpl.
  pose proof (count_delta _ _ Hcw Hnw) as Hw.
  pose proof (count_delta _ _ Hcb Hnb) as Hb.
  unfold _is_drastic_change. cbv zeta. fold (removed (white current_pos) (white new_pos)).
  fold (removed (black current_pos) (black new_pos)).
  fold (added (white current_pos) (white new_pos)).
  fold (added (black current_pos) (black new_pos)).
  destruct (bool_decide _ && bool_decide _) eqn:E.
  - apply andb_prop in E as [E1%bool_decide_eq_true E2%bool_decide_eq_true]. tauto.
  - apply andb_false_iff in E. rewrite !bool_decide_eq_false in E.
    rewrite bool_decide_eq_true. lia.
Qed.

(** Between duplicate-free snapshots the guard depends only on how many
    squares were left and how many were taken: the change is drastic when
    one square was left and two were taken, or when the two numbers differ
    by more than two. *)
Theorem drastic_change_by_delta new_pos current_pos :
  duplicate_free current_pos → duplicate_free new_pos →
  let total_removed := (size (left_by WHITE current_pos new_pos)
                        + size (left_by BLACK current_pos new_pos))%nat in
  let total_added := (size (taken_by WHITE current_pos new_pos)
                      + size (taken_by BLACK current_pos new_pos))%nat in
  _is_drastic_change new_pos (Some current_pos) = true ↔
  (total_removed = 1 ∧ total_added = 2)%nat
  ∨ (total_removed + 2 < total_added)%nat ∨ (total_added + 2 < total_removed)%nat.
Proof. apply is_drastic_change_by_counts. Qed.

Lemma drastic_change_by_delta_witness :
  duplicate_free (mkSnapshot ["e2"; "d2"] ["e7"])
  ∧ duplicate_free (mkSnapshot ["e4"; "d2"] ["e7"])
  ∧ _is_drastic_change (mkSnapshot ["e4"; "d2"] ["e7"])
                       (Some (mkSnapshot ["e2"; "d2"] ["e7"])) = false.
Proof.
  assert (duplicate_free (mkSnapshot ["e2"; "d2"] ["e7"])) as Hc by (split; by_compute).
  assert (duplicate_free (mkSnapshot ["e4"; "d2"] ["e7"])) as Hn by (split; by_compute).
  split; [exact Hc|]. split; [exact Hn|].
  apply not_true_is_false. intros H.
  apply (drastic_change_by_delta _ _ Hc Hn) in H. revert H. by_compute.
Defined.

Lemma parsed_on_board txt positions :
  _parse_positions txt = Some positions → on_board positions.
Proof.
  rewrite parse_positions_last. intros [= <-]. unfold on_board. simpl.
  apply Forall_app. split; apply Forall_forall; intros sq;
    rewrite sorted_Permutation, list_elem_of_filter; tauto.
Qed.

Lemma left_by_same c s : left_by c s s = ∅.
Proof. unfold left_by, removed. apply difference_diag_L. Qed.

End guard.

(** ** The session, whatever the rules and the engine are *)

Section session.

Context {Board Move : Type}.
Variable initial_board : Board.
Variable from_uci : string → option Move.
Variable is_legal : Board → Move → bool.
Variable push : Board → Move → Board.
Variable is_checkmate : Board → bool.
Variable color_at : Board → nat → option Color.
Variable fen : Board → string.
Variable get_best_move_time : string → option string.

Local Abbreviation Brain := (@ChessBrain Board).
Local Abbreviation process :=
  (process_move from_uci is_legal push is_checkmate color_at fen get_best_move_time).
Local Abbreviation start :=
  (start_game initial_board from_uci is_legal push is_checkmate color_at fen
              get_best_move_time).
Local Abbreviation best_move :=
  (_get_best_move from_uci is_legal push is_checkmate fen get_best_move_time).
Local Abbreviation snapshot := (_get_piece_snapshot color_at).
Local Abbreviation submit :=
  (submit_all from_uci is_legal push is_checkmate color_at fen get_best_move_time).
Local Abbreviation record := (push_and_record push color_at).
Local Abbreviation reply :=
  (after_push from_uci is_legal push is_checkmate fen get_best_move_time).

Implicit Types self : Brain.

(** *** Board snapshots *)

Lemma piece_map_NoDup b : NoDup (piece_map color_at b).
Proof.
  unfold piece_map.
  assert (NoDup (reverse (seq 0 64))) as H by (rewrite reverse_Permutation; apply NoDup_seq).
  induction H as [|sq l Hsq Hl IH]; simpl; [constructor|].
  destruct (color_at b sq) as [c|] eqn:E; simpl; [|done].
  constructor; [|done].
  intros (sq' & Hin & Hc)%list_elem_of_omap.
  destruct (color_at b sq'); simplify_eq/=. done.
Qed.

Lemma snapshot_names_NoDup (P : nat * Color → Prop) `{!∀ it, Decision (P it)} b :
  NoDup ((square_name ∘ fst) <$> filter P (piece_map color_at b)).
Proof.
  apply NoDup_fmap_2_strong; [|apply NoDup_filter, piece_map_NoDup].
  intros [i c] [j d] [_ [Hi Hc]%elem_of_piece_map]%list_elem_of_filter
    [_ [Hj Hd]%elem_of_piece_map]%list_elem_of_filter Hn. simpl in Hn.
  apply square_name_inj in Hn; [|done..]. subst. congruence.
Qed.

Lemma square_name_valid square : square < 64 → square_name square ∈ valid_squares.
Proof.
  intros H. rewrite valid_squares_names. apply elem_of_list_to_set, list_elem_of_fmap.
  exists square. split; [done|]. apply elem_of_seq. lia.
Qed.

Lemma snapshot_well_formed self :
  let s := snapshot self in
  (∀ square, square < 64 →
     (square_name square ∈ white s ↔ color_at (board self) square = Some WHITE)
     ∧ (square_name square ∈ black s ↔ color_at (board self) square = Some BLACK))
  ∧ on_board s ∧ duplicate_free s
  ∧ StronglySorted String.le (white s) ∧ StronglySorted String.le (black s).
Proof.
  cbv zeta. split; [|split; [|split; [|split]]].
  - intros square Hlt. split.
    + rewrite elem_of_snapshot_white. split.
      * intros (j & Hn & Hj & Hc). apply square_name_inj in Hn; [|done..]. by subst.
      * intros Hc. by exists square.
    + rewrite elem_of_snapshot_black. split.
      * intros (j & Hn & Hj & Hc). apply square_name_inj in Hn; [|done..]. by subst.
      * intros Hc. by exists square.
  - apply Forall_forall. intros sq [H|H]%elem_of_app.
    + apply elem_of_snapshot_white in H as (j & -> & Hj & _). by apply square_name_valid.
    + apply elem_of_snapshot_black in H as (j & -> & Hj & _). by apply square_name_valid.
  - unfold duplicate_free, _get_piece_snapshot. rewrite snapshot_loop_spec. simpl.
    rewrite !sorted_Permutation. split; apply snapshot_names_NoDup.
  - unfold _get_piece_snapshot. rewrite snapshot_loop_spec. apply sorted_StronglySorted.
  - unfold _get_piece_snapshot. rewrite snapshot_loop_spec. apply sorted_StronglySorted.
Qed.

(** The snapshot taken of a board lists, for each colour, exactly the
    names of the squares on which a piece of that colour stands, each one
    once, in ascending order; every name is a square of the board. *)
Theorem board_snapshot_well_formed self :
  let s := snapshot self in
  (∀ square, square < 64 →
     (square_name square ∈ white s ↔ color_at (board self) square = Some WHITE)
     ∧ (square_name square ∈ black s ↔ color_at (board self) square = Some BLACK))
  ∧ on_board s ∧ duplicate_free s
  ∧ StronglySorted String.le (white s) ∧ StronglySorted String.le (black s).
Proof. apply snapshot_well_formed. Qed.

(** *** What a request reads *)

Lemma requests_by_normal self a b :
  normal a = normal b →
  process self a = process self b ∧ start self a = start self b.
Proof.
  intros H. split.
  - unfold process_move.
    rewrite (is_uci_move_normal a b H), (parse_positions_normal a b H).
    change (Py.lower (Py.strip a)) with (normal a).
    change (Py.lower (Py.strip b)) with (normal b). by rewrite H.
  - unfold start_game.
    change (Py.lower (Py.strip a)) with (normal a).
    change (Py.lower (Py.strip b)) with (normal b). by rewrite H.
Qed.

(** A request is read through [strip] and [lower] only: two texts that are
    the same once trimmed and lowered are the same request, for a move as
    for a start. *)
Theorem requests_read_normalised self a b :
  normal a = normal b →
  process self a = process self b ∧ start self a = start self b.
Proof. apply requests_by_normal. Qed.

(** Two sessions on the same board that are both active or both over. *)
Definition same_game self1 self2 : Prop :=
  board self1 = board self2 ∧ game_active self1 = game_active self2.

Lemma best_move_same_game self1 self2 :
  same_game self1 self2 →
  (best_move self1).2 = (best_move self2).2
  ∧ same_game (best_move self1).1 (best_move self2).1.
Proof.
  destruct self1 as [b c1 a s1 f1], self2 as [b2 c2 a2 s2 f2].
  intros [Hb Ha]. simpl in *. subst b2 a2. unfold _get_best_move, same_game. simpl.
  repeat case_match; simpl; done.
Qed.

Lemma reply_same_game guarded self1 self2 :
  same_game self1 self2 →
  (reply guarded self1).2 = (reply guarded self2).2
  ∧ same_game (reply guarded self1).1 (reply guarded self2).1.
Proof.
  intros H. pose proof (best_move_same_game _ _ H) as [Hr Hs].
  destruct H as [Hb Ha]. unfold after_push. rewrite <- Hb.
  destruct (is_checkmate (board self1)); [by split; [|split]|].
  destruct (best_move self1) as [t1 [r1|]], (best_move self2) as [t2 [r2|]];
    simpl in *; simplify_eq; done.
Qed.

Lemma record_same_game self1 self2 move :
  same_game self1 self2 → same_game (record self1 move) (record self2 move).
Proof. intros [Hb Ha]. split; simpl; congruence. Qed.

Lemma snapshot_same_board self1 self2 :
  board self1 = board self2 → snapshot self1 = snapshot self2.
Proof. unfold _get_piece_snapshot. by intros ->. Qed.

(** Processing a move reads the board and the activity flag of the session
    and nothing else: the colour chosen at the start, the stored snapshot
    and the first-move flag change neither the reply nor the board and the
    activity that result; and it leaves the colour and the first-move flag
    as they were. *)
Theorem process_move_reads_board_and_activity self1 self2 incoming :
  same_game self1 self2 →
  (process self1 incoming).2 = (process self2 incoming).2
  ∧ same_game (process self1 incoming).1 (process self2 incoming).1
  ∧ app_color (process self1 incoming).1 = app_color self1
  ∧ first_move_received (process self1 incoming).1 = first_move_received self1.
Proof.
  intros H. split; [|split]; [| |clear H self2].
  - destruct (H) as [Hb Ha]. unfold process_move.
    rewrite <- (snapshot_same_board _ _ Hb), <- Hb, <- Ha.
    repeat case_match; try done; by apply reply_same_game, record_same_game.
  - destruct (H) as [Hb Ha]. unfold process_move.
    rewrite <- (snapshot_same_board _ _ Hb), <- Hb, <- Ha.
    repeat case_match; try done; by apply reply_same_game, record_same_game.
  - assert (∀ self, app_color (best_move self).1 = app_color self
                    ∧ first_move_received (best_move self).1 = first_move_received self)
      as Hbest.
    { intros self. unfold _get_best_move. by repeat case_match. }
    assert (∀ g self, app_color (reply g self).1 = app_color self
                      ∧ first_move_received (reply g self).1 = first_move_received self)
      as Hreply.
    { intros g self. unfold after_push. case_match; [done|].
      specialize (Hbest self). by destruct (best_move self) as [? [?|]]. }
    unfold process_move.
    repeat case_match; try done;
      match goal with |- context [reply ?g ?s] => apply (Hreply g s) end.
Qed.

(** *** The engine's reply *)

(** The session after the engine's move [move], whose text is returned. *)
Definition replied self (move : Move) : Brain :=
  let b := push (board self) move in
  mkBrain b (app_color self) (if is_checkmate b then false else game_active self)
          (last_position_snapshot self) (first_move_received self).

(** The three ways in which [_get_best_move] ends: nothing to play and the
    session as it was, an exception and the session as it was, or the
    engine's non-empty text, which parses to a legal move that has been
    played. *)
Lemma best_move_cases self :
  best_move self = (self, Return None)
  ∨ best_move self = (self, Raised)
  ∨ ∃ t move, get_best_move_time (fen (board self)) = Some t ∧ t ≠ EmptyString
      ∧ from_uci t = Some move ∧ is_legal (board self) move = true
      ∧ best_move self = (replied self move, Return (Some t)).
Proof.
  unfold _get_best_move.
  destruct (get_best_move_time _) as [t|] eqn:Ht; [|by left].
  case_decide as Hne; [by left|].
  destruct (from_uci t) as [move|] eqn:Hm; [|by right; left].
  destruct (is_legal _ move) eqn:Hl; [|by left].
  right; right. exists t, move. repeat split; try done.
  unfold replied. simpl. by destruct (is_checkmate _).
Qed.

(** The moves played on a board, one after the other, each one legal where
    it is played. *)
Fixpoint play (b : Board) (moves : list Move) : option Board :=
  match moves with
  | [] => Some b
  | move :: rest => if is_legal b move then play (push b move) rest else None
  end.

Lemma play_app b moves1 moves2 b1 :
  play b moves1 = Some b1 → play b (moves1 ++ moves2) = play b1 moves2.
Proof.
  revert b. induction moves1 as [|m l IH]; simpl; intros b H; [by simplify_eq|].
  destruct (is_legal b m); [by apply IH|done].
Qed.

Lemma best_move_play self :
  ∃ moves, (length moves ≤ 1)%nat ∧ play (board self) moves = Some (board (best_move self).1).
Proof.
  destruct (best_move_cases self) as [->|[->|(t & move & _ & _ & _ & Hl & ->)]].
  - by exists []; split; [simpl; lia|].
  - by exists []; split; [simpl; lia|].
  - exists [move]. simpl. rewrite Hl. split; [lia|done].
Qed.

Lemma reply_play guarded self :
  ∃ moves, (length moves ≤ 1)%nat ∧ play (board self) moves = Some (board (reply guarded self).1).
Proof.
  unfold after_push. destruct (is_checkmate _); [by exists []; split; [simpl; lia|]|].
  destruct (best_move_play self) as (moves & Hlen & Hp).
  exists moves. split; [done|]. by destruct (best_move self) as [? [?|]].
Qed.

Lemma record_reply_play guarded self move :
  is_legal (board self) move = true →
  ∃ moves, (length moves ≤ 2)%nat
    ∧ play (board self) moves = Some (board (reply guarded (record self move)).1).
Proof.
  intros Hl. destruct (reply_play guarded (record self move)) as (moves & Hlen & Hp).
  exists (move :: moves). simpl. rewrite Hl. split; [lia|done].
Qed.

Lemma process_play self incoming :
  ∃ moves, (length moves ≤ 2)%nat
    ∧ play (board self) moves = Some (board (process self incoming).1).
Proof.
  unfold process_move.
  repeat case_match; try (by exists []; split; [simpl; lia|]); by apply record_reply_play.
Qed.

(** Only legal moves are ever played.  The board a request leaves is
    reached from the board it found by at most two moves, each legal where
    it is played; the board a start leaves is the initial board or reached
    from it by one legal move, unless the colour is refused and the board
    stays; and a sequence of requests plays at most two moves each. *)
Theorem only_legal_moves_played self :
  (∀ incoming, ∃ moves, (length moves ≤ 2)%nat
     ∧ play (board self) moves = Some (board (process self incoming).1))
  ∧ (∀ color, board (start self color).1 = board self
       ∨ ∃ moves, (length moves ≤ 1)%nat
           ∧ play initial_board moves = Some (board (start self color).1))
  ∧ (∀ inputs, ∃ moves, (length moves ≤ 2 * length inputs)%nat
       ∧ play (board self) moves = Some (board (submit self inputs).1)).
Proof.
  split; [apply process_play|]. split.
  - intros color. unfold start_game. cbv zeta.
    destruct (negb _); [by left|]. right.
    destruct (decide (_ = WHITE)); [|by exists []; split; [simpl; lia|]].
    match goal with |- context [best_move ?s] =>
      destruct (best_move_play s) as (moves & Hlen & Hp);
      exists moves; split; [done|]; by destruct (best_move s) as [? [?|]] end.
  - intros inputs. revert self.
    induction inputs as [|incoming rest IH]; intros self; [by exists []; split; [simpl; lia|]|].
    simpl. destruct (process_play self incoming) as (m1 & Hl1 & Hp1).
    destruct (process self incoming) as [self1 r] eqn:E. simpl in Hp1.
    destruct (IH self1) as (m2 & Hl2 & Hp2).
    destruct (submit self1 rest) as [self2 rs]. simpl in *.
    exists (m1 ++ m2). rewrite length_app, (play_app _ _ _ _ Hp1).
    split; [lia|done].
Qed.

(** *** Checkmate and the activity flag *)

(** The board of an active session is not a checkmate. *)
Definition never_mated self : Prop :=
  game_active self = true → is_checkmate (board self) = false.

Lemma best_move_activity self :
  never_mated self →
  never_mated (best_move self).1
  ∧ (game_active self = true → game_active (best_move self).1 = false →
     is_checkmate (board (best_move self).1) = true).
Proof.
  intros H.
  destruct (best_move_cases self) as [->|[->|(t & move & _ & _ & _ & _ & ->)]];
    simpl; [split; [done|congruence]..|].
  unfold never_mated, replied. simpl.
  destruct (is_checkmate (push _ _)); [done|]. split; [done|congruence].
Qed.

Lemma reply_activity guarded self :
  never_mated (reply guarded self).1
  ∧ (game_active self = true → game_active (reply guarded self).1 = false →
     is_checkmate (board (reply guarded self).1) = true).
Proof.
  unfold after_push. destruct (is_checkmate (board self)) eqn:E.
  { split; [by unfold never_mated|]. by intros _ _. }
  assert (never_mated self) as H by (by intros _).
  apply best_move_activity in H. by destruct (best_move self) as [? [?|]].
Qed.

(** The activity flag follows checkmate, and nothing else.  If the board
    of an active session is never a checkmate before a request, it is not
    after it; a request that ends an active session leaves a checkmate on
    the board; and a start leaves an active session on a board without
    checkmate, provided the initial board is none. *)
Theorem activity_follows_checkmate self :
  (∀ incoming, never_mated self → never_mated (process self incoming).1)
  ∧ (∀ incoming, game_active self = true → game_active (process self incoming).1 = false →
       is_checkmate (board (process self incoming).1) = true)
  ∧ (∀ color, never_mated self → is_checkmate initial_board = false →
       never_mated (start self color).1).
Proof.
  split; [|split].
  - intros incoming H. unfold process_move.
    repeat case_match; try done; apply reply_activity.
  - intros incoming Ha. unfold process_move. rewrite Ha.
    cbn [negb]. cbv beta iota zeta.
    repeat case_match; cbn [fst]; try congruence; by apply reply_activity.
  - intros color H Hi. unfold start_game. cbv zeta.
    destruct (negb _); [exact H|].
    destruct (decide (_ = WHITE)); [|by intros _].
    match goal with |- context [best_move ?s] =>
      assert (never_mated s) as Hs by (by intros _);
      apply best_move_activity in Hs as [Hs _];
      by destruct (best_move s) as [? [?|]] end.
Qed.

(** *** What the replies mean *)

(** How the code after a pushed move ends: with the empty text, with
    "Invalid" (on the guarded path only), or with the engine's text, whose
    move has been played. *)
Lemma reply_cases guarded self r :
  (reply guarded self).2 = Return r →
  r = EmptyString
  ∨ (guarded = true ∧ r = "Invalid")
  ∨ ∃ move, get_best_move_time (fen (board self)) = Some r ∧ r ≠ EmptyString
      ∧ from_uci r = Some move ∧ is_legal (board self) move = true
      ∧ (reply guarded self).1 = replied self move.
Proof.
  unfold after_push. destruct (is_checkmate _); [simpl; intros [= <-]; by left|].
  destruct (best_move_cases self) as [->|[->|(t & move & Ht & Hne & Hm & Hl & ->)]];
    simpl.
  - intros [= <-]. by left.
  - destruct guarded; [|done]. intros [= <-]. right; left. done.
  - intros [= <-]. right; right. by exists move.
Qed.

(** The paths of a request in an active session: it is dropped with the
    empty text, refused with "Invalid", or a legal move, typed or inferred,
    is played and the engine is asked. *)
Lemma process_paths self incoming :
  game_active self = true →
  process self incoming = (self, Return EmptyString)
  ∨ process self incoming = (self, Return "Invalid")
  ∨ ∃ guarded mine,
      (guarded = true ∧ _is_uci_move incoming = true
       ∧ from_uci (normal incoming) = Some mine
       ∨ guarded = false ∧ _is_uci_move incoming = false
         ∧ ∃ positions m, _parse_positions incoming = Some positions
             ∧ _deduce_move_from_snapshot positions (snapshot self) = Some m
             ∧ from_uci m = Some mine)
      ∧ is_legal (board self) mine = true
      ∧ process self incoming = reply guarded (record self mine).
Proof.
  intros Ha. unfold process_move. rewrite Ha. cbn [negb]. cbv beta iota zeta.
  change (Py.lower (Py.strip incoming)) with (normal incoming).
  destruct (_is_uci_move incoming) eqn:Hu.
  - destruct (from_uci (normal incoming)) as [mine|] eqn:Hm; [|by right; left].
    destruct (is_legal (board self) mine) eqn:Hl; [|by right; left].
    right; right. exists true, mine. split; [left; by repeat split|]. by split.
  - destruct (_parse_positions incoming) as [positions|] eqn:Hp; [|by left].
    case_decide; [by left|].
    destruct (_is_drastic_change _ _); [by left|].
    destruct (_deduce_move_from_snapshot _ _) as [m|] eqn:Hd; [|by left].
    case_decide; [by left|].
    destruct (from_uci m) as [mine|] eqn:Hm; [|by left].
    destruct (is_legal (board self) mine) eqn:Hl; [|by left].
    right; right. exists false, mine. split; [|by split].
    right. split; [done|]. split; [done|]. by exists positions, m.
Qed.

(** The replies of an active session: the empty text, "Invalid", or the
    engine's text after two moves have been played. *)
Lemma process_reply_cases self incoming r :
  game_active self = true →
  (process self incoming).2 = Return r →
  r = EmptyString ∨ r = "Invalid"
  ∨ ∃ mine theirs,
      (_is_uci_move incoming = true ∧ from_uci (normal incoming) = Some mine
       ∨ _is_uci_move incoming = false
         ∧ ∃ positions m, _parse_positions incoming = Some positions
             ∧ _deduce_move_from_snapshot positions (snapshot self) = Some m
             ∧ from_uci m = Some mine)
      ∧ is_legal (board self) mine = true
      ∧ get_best_move_time (fen (push (board self) mine)) = Some r
      ∧ from_uci r = Some theirs
      ∧ is_legal (push (board self) mine) theirs = true
      ∧ board (process self incoming).1 = push (push (board self) mine) theirs.
Proof.
  intros Ha H.
  destruct (process_paths self incoming Ha) as [E|[E|(g & mine & Hsrc & Hl & E)]];
    rewrite E in H |- *.
  - left. cbn [snd] in H. congruence.
  - right; left. cbn [snd] in H. congruence.
  - apply reply_cases in H as [->|[[_ ->]|(theirs & Ht & _ & Hp & Hlt & Hs)]];
      [by left|by right; left|].
    right; right. rewrite Hs. exists mine, theirs.
    split; [destruct Hsrc as [(_ & ? & ?)|(_ & ? & ?)]; [by left|by right]|].
    split; [done|]. split; [exact Ht|]. split; [done|]. split; [exact Hlt|].
    reflexivity.
Qed.

(** A reply that is a move is the engine's move, and it has been played.
    When a request is answered by a text other than the empty one,
    "Invalid" and "Game Over", the session was active, the request denoted
    a move legal on the board (typed, or inferred from a snapshot), that
    move was played, the text is what the engine answered for the position
    reached, it denotes a move legal there, and the board the request
    leaves is the one after both moves. *)
Theorem returned_move_was_played self incoming r :
  (process self incoming).2 = Return r →
  r ≠ EmptyString → r ≠ "Invalid" → r ≠ "Game Over" →
  game_active self = true
  ∧ ∃ mine theirs,
      (_is_uci_move incoming = true ∧ from_uci (normal incoming) = Some mine
       ∨ _is_uci_move incoming = false
         ∧ ∃ positions m, _parse_positions incoming = Some positions
             ∧ _deduce_move_from_snapshot positions (snapshot self) = Some m
             ∧ from_uci m = Some mine)
      ∧ is_legal (board self) mine = true
      ∧ get_best_move_time (fen (push (board self) mine)) = Some r
      ∧ from_uci r = Some theirs
      ∧ is_legal (push (board self) mine) theirs = true
      ∧ board (process self incoming).1 = push (push (board self) mine) theirs.
Proof.
  intros H Hne Hni Hng.
  destruct (game_active self) eqn:Ha.
  - split; [done|].
    by destruct (process_reply_cases self incoming r Ha H) as [?|[?|?]].
  - unfold process_move in H. rewrite Ha in H. by simplify_eq/=.
Qed.

(** "Game Over" means two different things.  Provided the text "Game
    Over" denotes no move: a request is answered "Game Over" exactly when
    the session is not active; but a start answered "Game Over" leaves an
    active session on the initial board. *)
Theorem game_over_replies self :
  from_uci "Game Over" = None →
  (∀ incoming,
     (process self incoming).2 = Return "Game Over" ↔ game_active self = false)
  ∧ (∀ color,
       (start self color).2 = Return "Game Over" →
       game_active (start self color).1 = true
       ∧ board (start self color).1 = initial_board).
Proof.
  intros Hg. split.
  - intros incoming. split.
    + intros H. destruct (game_active self) eqn:Ha; [|done].
      destruct (process_reply_cases self incoming _ Ha H)
        as [?|[?|(? & ? & _ & _ & _ & ? & _)]]; [done..|congruence].
    + intros Ha. unfold process_move. by rewrite Ha.
  - intros color. unfold start_game. cbv zeta.
    destruct (negb _); [done|].
    destruct (decide (_ = WHITE)); [|done].
    match goal with |- context [best_move ?s] =>
      destruct (best_move_cases s) as [->|[->|(t & move & _ & _ & Hm & _ & ->)]] end;
      simpl; [done..|].
    intros [= ->]. congruence.
Qed.

(** *** Starting a game *)

(** The session a start installs for a colour, before the engine is
    asked. *)
Definition fresh (c : Color) : Brain :=
  mkBrain initial_board (Some c) true (Some (snapshot (new_brain initial_board))) false.

Lemma start_valid self color :
  normal color ∈ ["white"; "black"] →
  start self color =
    if decide (normal color = "white")
    then match best_move (fresh WHITE) with
         | (s, Return move) => (s, Return (default "Game Over" move))
         | (s, Raised) => (s, Raised)
         end
    else (fresh BLACK, Return EmptyString).
Proof.
  intros H. unfold start_game. cbv zeta.
  change (Py.lower (Py.strip color)) with (normal color).
  rewrite (bool_decide_eq_true_2 _ H). cbn [negb].
  rewrite !(snapshot_same_board _ (new_brain initial_board)) by reflexivity.
  unfold set_last_position_snapshot, fresh.
  cbn [board app_color game_active first_move_received].
  destruct (decide (normal color = "white")) as [Hc|Hc].
  - by rewrite decide_True.
  - by rewrite decide_False.
Qed.

Lemma best_move_keeps_rest self :
  app_color (best_move self).1 = app_color self
  ∧ last_position_snapshot (best_move self).1 = last_position_snapshot self
  ∧ first_move_received (best_move self).1 = first_move_received self.
Proof.
  by destruct (best_move_cases self) as [->|[->|(t & move & _ & _ & _ & _ & ->)]].
Qed.

(** A start keeps nothing of the session it finds.  With a colour that is
    "white" or "black" once trimmed and lowered, the outcome is the one a
    new [ChessBrain] would give, the first-move flag is cleared, and the
    stored snapshot is the snapshot of the initial board, also when the
    engine has opened the game; with any other colour the answer is
    "Invalid" and the session is as it was. *)
Theorem start_game_discards_session self color :
  (normal color ∈ ["white"; "black"] →
   start self color = start (new_brain initial_board) color
   ∧ first_move_received (start self color).1 = false
   ∧ last_position_snapshot (start self color).1
     = Some (snapshot (new_brain initial_board))
   ∧ app_color (start self color).1
     = Some (if decide (normal color = "white") then WHITE else BLACK))
  ∧ (normal color ∉ ["white"; "black"] →
     start self color = (self, Return "Invalid")).
Proof.
  split; intros H.
  - rewrite (start_valid (new_brain initial_board) color H).
    rewrite (start_valid self color H). split; [reflexivity|].
    destruct (decide (normal color = "white")); [|by repeat split].
    pose proof (best_move_keeps_rest (fresh WHITE)) as (Hc & Hs & Hf).
    by destruct (best_move (fresh WHITE)) as [s [r|]].
  - unfold start_game. cbv zeta.
    change (Py.lower (Py.strip color)) with (normal color).
    by rewrite (bool_decide_eq_false_2 _ H).
Qed.

(** *** A snapshot that shows a move *)

(** Unless the engine's text cannot be parsed, the guarded and the
    unguarded code after a pushed move end alike. *)
Lemma reply_guard self r :
  (reply false self).2 = Return r → reply true self = reply false self.
Proof.
  unfold after_push. destruct (is_checkmate _); [done|].
  by destruct (best_move self) as [? [?|]].
Qed.

(** A snapshot that shows one move is handled as the move typed.  In an
    active session, let a duplicate-free snapshot differ from the board in
    that one colour left [src] and took [dst], while the other colour is
    as before or lost the piece on [dst].  If the text [src ++ dst] denotes
    a move that is legal on the board, the snapshot and the typed text
    both play that move and ask the engine; the outcomes are the same
    whenever the snapshot's request returns at all. *)
Theorem snapshot_of_move_handled_as_move self incoming positions c src dst move :
  game_active self = true →
  _is_uci_move incoming = false →
  _parse_positions incoming = Some positions →
  duplicate_free positions →
  left_by c (snapshot self) positions = {[src]} →
  taken_by c (snapshot self) positions = {[dst]} →
  left_by (opponent c) (snapshot self) positions = ∅
  ∨ left_by (opponent c) (snapshot self) positions = {[dst]} →
  taken_by (opponent c) (snapshot self) positions = ∅ →
  from_uci (src ++ dst)%string = Some move →
  is_legal (board self) move = true →
  process self incoming = reply false (record self move)
  ∧ process self (src ++ dst)%string = reply true (record self move)
  ∧ (∀ r, (process self incoming).2 = Return r →
       process self (src ++ dst)%string = process self incoming).
Proof.
  intros Ha Hu Hp Hdup Hl Ht Hol Hot Hm Hlegal.
  destruct (snapshot_well_formed self) as (_ & Hon & Hnd & _).
  pose proof (parsed_on_board _ _ Hp) as Hpon.
  assert (src ∈ valid_squares) as Hsrc.
  { apply (on_board_elem c (snapshot self)); [done|].
    apply (left_by_elem c _ positions). rewrite Hl. by apply elem_of_singleton. }
  assert (dst ∈ valid_squares) as Hdst.
  { apply (on_board_elem c positions); [done|].
    apply (taken_by_elem c (snapshot self)). rewrite Ht. by apply elem_of_singleton. }
  assert (coordinate_text (src ++ dst)%string) as Hct.
  { exists src, dst. split; [done|]. split; [done|]. by left. }
  assert (_deduce_move_from_snapshot positions (snapshot self)
          = Some (src ++ dst)%string) as Hd.
  { destruct Hol as [Hol|Hol];
      [by apply (deduce_quiet c)|by apply (deduce_capture c)]. }
  assert (_is_drastic_change positions (Some (snapshot self)) = false) as Hg.
  { apply not_true_is_false. intros Hdr.
    apply (is_drastic_change_by_counts _ _ Hnd Hdup) in Hdr. cbv zeta in Hdr.
    assert (size (left_by c (snapshot self) positions) = 1%nat) as E1
      by (by rewrite Hl, size_singleton).
    assert (size (taken_by c (snapshot self) positions) = 1%nat) as E2
      by (by rewrite Ht, size_singleton).
    assert (size (taken_by (opponent c) (snapshot self) positions) = 0%nat) as E3
      by (by rewrite Hot, size_empty).
    assert (size (left_by (opponent c) (snapshot self) positions) ≤ 1)%nat as E4
      by (destruct Hol as [-> | ->]; rewrite ?size_empty, ?size_singleton; lia).
    destruct c; cbn [opponent] in E1, E2, E3, E4; lia. }
  assert (positions ≠ snapshot self) as Hne.
  { intros ->. rewrite left_by_same in Hl. symmetry in Hl.
    by apply singleton_ne_empty in Hl. }
  assert (process self incoming = reply false (record self move)) as E.
  { unfold process_move. rewrite Ha, Hu, Hp. cbn [negb]. cbv beta iota zeta.
    rewrite decide_False by done. rewrite Hg, Hd.
    rewrite decide_False.
    - by rewrite Hm, Hlegal.
    - apply elem_of_valid_squares in Hsrc as (? & ? & -> & _). done. }
  assert (process self (src ++ dst)%string = reply true (record self move)) as E'.
  { unfold process_move. rewrite Ha. cbn [negb]. cbv beta iota zeta.
    rewrite (proj2 (is_uci_move_coordinate _)) by (by rewrite (coordinate_text_normal _ Hct)).
    change (Py.lower (Py.strip (src ++ dst)%string)) with (normal (src ++ dst)%string).
    by rewrite (coordinate_text_normal _ Hct), Hm, Hlegal. }
  split; [done|]. split; [done|].
  intros r Hr. rewrite E', E. apply (reply_guard _ r). by rewrite <- E.
Qed.

End session.

(** ** The documented request formats *)

(** The text of a snapshot in the formats the server announces:
    "white:a1,a2;black:a7,a8", or with a blank in place of the semicolon. *)
Definition snapshot_text (sep : ascii) (s : Snapshot) : string :=
  (("white:" ++ String.concat "," (white s))
   ++ String sep ("black:" ++ String.concat "," (black s)))%string.

(** No character of the text is whitespace, an upper-case letter or one of
    the characters [seps]. *)
Definition clean (seps : list ascii) (s : string) : Prop :=
  Forall (λ c, Py.isspace c = false ∧ Py.lower_char c = c ∧ c ∉ seps)
         (list_ascii_of_string s).

Section documented_format.

Lemma chars_app a b :
  list_ascii_of_string (a ++ b)%string = list_ascii_of_string a ++ list_ascii_of_string b.
Proof. induction a as [|c a IH]; simpl; [done|]. by rewrite IH. Qed.

Lemma clean_app seps a b : clean seps a → clean seps b → clean seps (a ++ b)%string.
Proof. unfold clean. rewrite chars_app. apply Forall_app_2. Qed.

Lemma clean_no_blank seps s : clean seps s → no_blank s.
Proof. unfold clean, no_blank. intros H. eapply Forall_impl; [exact H|]. by intros c [? _]. Qed.

Lemma clean_lower seps s : clean seps s → Py.lower s = s.
Proof.
  unfold clean. induction s as [|c s IH]; simpl; [done|].
  intros [(_ & Hc & _) Hs]%Forall_cons. by rewrite Hc, IH.
Qed.

Lemma clean_avoids seps sep s :
  sep ∈ seps → clean seps s → Forall (λ c, c ≠ sep) (list_ascii_of_string s).
Proof.
  intros Hsep H. eapply Forall_impl; [exact H|]. intros c (_ & _ & Hc) ->. done.
Qed.

Lemma clean_weaken seps seps' s : seps' ⊆ seps → clean seps s → clean seps' s.
Proof.
  intros Hsub H. eapply Forall_impl; [exact H|]. intros c (? & ? & Hc).
  split; [done|]. split; [done|]. intros ?. by apply Hc, Hsub.
Qed.

Lemma valid_square_clean sq :
  sq ∈ valid_squares → sq ≠ EmptyString ∧ clean [";"; ":"; ","]%char sq.
Proof.
  intros H%elem_of_elements. revert sq H. apply Forall_forall. by_compute.
Qed.

Lemma concat_clean l :
  Forall (λ sq, sq ∈ valid_squares) l → clean [";"; ":"]%char (String.concat "," l).
Proof.
  assert (∀ s, clean [";"; ":"; ","]%char s → clean [";"; ":"]%char s) as Hw.
  { intros s. apply clean_weaken. by_compute. }
  induction 1 as [|sq l Hsq Hl IH]; simpl; [constructor|].
  apply valid_square_clean in Hsq as [_ Hsq%Hw].
  destruct l as [|sq' l]; [done|].
  apply clean_app; [done|]. apply (clean_app _ ","); [by_compute|done].
Qed.

Lemma rstrip_app_r a b :
  b ≠ EmptyString → Py.rstrip b = b → Py.rstrip (a ++ b) = (a ++ b)%string.
Proof.
  intros Hne Hb. induction a as [|c a IH]; [done|].
  change (String c a ++ b)%string with (String c (a ++ b)).
  rewrite rstrip_unfold, IH. destruct (a ++ b)%string eqn:E; [|done].
  destruct a; simpl in E; [done|discriminate].
Qed.

Lemma split_no_sep sep s :
  Forall (λ c, c ≠ sep) (list_ascii_of_string s) → Py.split sep s = [s].
Proof.
  induction s as [|c s IH]; simpl; [done|].
  intros [Hc Hs]%Forall_cons. by rewrite decide_False, IH.
Qed.

Lemma split_app_sep sep a b :
  Forall (λ c, c ≠ sep) (list_ascii_of_string a) →
  Py.split sep (a ++ String sep b) = a :: Py.split sep b.
Proof.
  induction a as [|c a IH]; simpl.
  - intros _. by rewrite decide_True.
  - intros [Hc Ha]%Forall_cons. by rewrite decide_False, IH.
Qed.

Lemma split_ws_cons c c' s :
  Py.isspace c = false → Py.isspace c' = false →
  Py.split_ws (String c (String c' s)) =
    match Py.split_ws (String c' s) with
    | h :: t => String c h :: t
    | [] => [String c EmptyString]
    end.
Proof. intros Hc Hc'. simpl. by rewrite Hc, Hc'. Qed.

Lemma split_ws_cons_blank c sp s :
  Py.isspace c = false → Py.isspace sp = true →
  Py.split_ws (String c (String sp s)) = String c EmptyString :: Py.split_ws s.
Proof. intros Hc Hsp. simpl. by rewrite Hc, Hsp. Qed.

Lemma split_ws_two sp a b :
  Py.isspace sp = true → no_blank a → a ≠ EmptyString → no_blank b → b ≠ EmptyString →
  Py.split_ws (a ++ String sp b) = [a; b].
Proof.
  intros Hsp Ha Hne Hb Hbe. induction a as [|c a IH]; [done|].
  apply Forall_cons in Ha as [Hc Ha].
  destruct a as [|c' a].
  - change (String c "" ++ String sp b)%string with (String c (String sp b)).
    by rewrite (split_ws_cons_blank _ _ _ Hc Hsp), (split_ws_no_blank _ Hb Hbe).
  - change (String c (String c' a) ++ String sp b)%string
      with (String c (String c' (a ++ String sp b))).
    rewrite split_ws_cons; [|done|by apply (Forall_cons_1 _ _ _ Ha)].
    change (String c' (a ++ String sp b)) with (String c' a ++ String sp b)%string.
    by rewrite IH.
Qed.

Lemma contains_sep sep a b : Py.contains sep (a ++ String sep b) = true.
Proof. apply contains_app_r. simpl. by rewrite decide_True. Qed.

Lemma split_concat l :
  Forall (λ sq, sq ∈ valid_squares) l → l ≠ [] →
  Py.split "," (String.concat "," l) = l.
Proof.
  induction 1 as [|sq l Hsq Hl IH]; [done|]. intros _.
  apply valid_square_clean in Hsq as [_ Hsq].
  apply (clean_avoids _ ","%char) in Hsq; [|by_compute].
  destruct l as [|sq' l]; simpl.
  - by apply split_no_sep.
  - change ("," ++ ?x)%string with (String ","%char x).
    rewrite (split_app_sep _ _ _ Hsq). f_equal. by apply IH.
Qed.

Lemma squares_of_concat l :
  Forall (λ sq, sq ∈ valid_squares) l → squares_of (String.concat "," l) = l.
Proof.
  intros Hl. unfold squares_of.
  destruct l as [|sq l]; [done|]. rewrite (split_concat _ Hl) by done.
  induction Hl as [|x l' Hx Hl' IH]; [done|].
  apply valid_square_clean in Hx as [Hne Hx%clean_no_blank%strip_no_blank].
  rewrite filter_cons, decide_True by (by rewrite Hx).
  rewrite fmap_cons, Hx. f_equal. apply IH.
Qed.

Lemma filter_valid l :
  Forall (λ sq, sq ∈ valid_squares) l → filter (λ sq, sq ∈ valid_squares) l = l.
Proof.
  induction 1 as [|x l Hx Hl IH]; [done|]. by rewrite filter_cons, decide_True, IH.
Qed.

(** The token of a colour, as the documented formats write it. *)
Lemma token_clean p l :
  clean [";"]%char p → Forall (λ sq, sq ∈ valid_squares) l →
  clean [";"]%char (p ++ String.concat "," l).
Proof.
  intros Hp Hl. apply clean_app; [done|].
  apply (clean_weaken [";"; ":"]%char); [by_compute|by apply concat_clean].
Qed.

Lemma token_squares_documented p l :
  p ∈ ["white"; "black"] → Forall (λ sq, sq ∈ valid_squares) l →
  token_squares (p ++ String ":"%char (String.concat "," l)) = l.
Proof.
  intros Hp Hl. unfold token_squares.
  assert (clean [";"; ":"]%char p) as Hpc.
  { revert p Hp. apply Forall_forall. by_compute. }
  rewrite strip_no_blank.
  - rewrite split_app_sep
      by (apply (clean_avoids [";"; ":"]%char ":"%char); [by_compute|done]).
    rewrite split_no_sep
      by (apply (clean_avoids [";"; ":"]%char ":"%char);
          [by_compute|by apply concat_clean]).
    simpl. by apply squares_of_concat.
  - unfold no_blank. rewrite chars_app. apply Forall_app_2.
    + by apply (clean_no_blank _ _ Hpc).
    + constructor; [done|]. by apply (clean_no_blank _ _ (concat_clean _ Hl)).
Qed.

Lemma rstrip_app_sep a c b :
  b ≠ EmptyString → Py.rstrip b = b →
  Py.rstrip (a ++ String c b) = (a ++ String c b)%string.
Proof.
  intros Hne Hb. induction a as [|c' a IH].
  - change (Py.rstrip (String c b) = String c b).
    rewrite rstrip_unfold, Hb. by destruct b.
  - change (String c' a ++ String c b)%string with (String c' (a ++ String c b)).
    rewrite rstrip_unfold, IH. by destruct a.
Qed.

Lemma lower_app_sep a c b :
  Py.lower (a ++ String c b) = (Py.lower a ++ String (Py.lower_char c) (Py.lower b))%string.
Proof. induction a as [|c' a IH]; simpl; [done|]. by rewrite IH. Qed.

Lemma startswith_prefix p r : Py.startswith p (p ++ r) = true.
Proof.
  unfold Py.startswith. induction p as [|a p IH]; simpl; [by destruct r|].
  by destruct (ascii_dec a a).
Qed.

Lemma documented_token p l :
  p ∈ ["white:"; "black:"] → Forall (λ sq, sq ∈ valid_squares) l →
  let tok := (p ++ String.concat "," l)%string in
  clean [";"]%char tok ∧ tok ≠ EmptyString ∧ Py.strip tok = tok.
Proof.
  intros Hp Hl.
  assert (clean [";"]%char p ∧ p ≠ EmptyString) as [Hpc Hne].
  { revert p Hp. apply Forall_forall. by_compute. }
  intros tok.
  assert (clean [";"]%char tok) as Hc by (by apply token_clean).
  split; [done|]. split; [by destruct p|].
  by apply strip_no_blank, (clean_no_blank [";"]%char).
Qed.

(** A text in a documented format is its own normal form. *)
Lemma snapshot_text_normal sep s :
  sep ∈ [";"; " "]%char → on_board s →
  normal (snapshot_text sep s) = snapshot_text sep s.
Proof.
  intros Hsep [Hw Hb]%Forall_app. unfold snapshot_text, normal.
  destruct (documented_token "white:" (white s) ltac:(by_compute) Hw) as (Hwc & Hwne & Hws).
  destruct (documented_token "black:" (black s) ltac:(by_compute) Hb) as (Hbc & Hbne & Hbs).
  set (wp := ("white:" ++ String.concat "," (white s))%string) in *.
  set (bp := ("black:" ++ String.concat "," (black s))%string) in *.
  assert (Py.lower_char sep = sep) as Hlow.
  { revert sep Hsep. apply Forall_forall. by_compute. }
  unfold Py.strip.
  replace (Py.lstrip (wp ++ String sep bp)) with (wp ++ String sep bp)%string
    by reflexivity.
  rewrite rstrip_app_sep.
  - by rewrite lower_app_sep, Hlow, (clean_lower _ _ Hwc), (clean_lower _ _ Hbc).
  - done.
  - by apply rstrip_no_blank, (clean_no_blank [";"]%char).
Qed.

(** The parts the parser's loop runs over, for a text in a documented
    format: the white token and the black token. *)
Lemma snapshot_text_parts sep s :
  sep ∈ [";"; " "]%char → on_board s →
  parts_of (Py.lower (Py.strip (snapshot_text sep s)))
  = [("white:" ++ String.concat "," (white s))%string;
     ("black:" ++ String.concat "," (black s))%string].
Proof.
  intros Hsep Hs. change (Py.lower (Py.strip ?t)) with (normal t).
  rewrite (snapshot_text_normal _ _ Hsep Hs).
  apply Forall_app in Hs as [Hw Hb]. unfold snapshot_text.
  destruct (documented_token "white:" (white s) ltac:(by_compute) Hw) as (Hwc & Hwne & Hws).
  destruct (documented_token "black:" (black s) ltac:(by_compute) Hb) as (Hbc & Hbne & Hbs).
  set (wp := ("white:" ++ String.concat "," (white s))%string) in *.
  set (bp := ("black:" ++ String.concat "," (black s))%string) in *.
  unfold parts_of.
  apply elem_of_cons in Hsep as [->|Hsep].
  - rewrite contains_sep.
    rewrite split_app_sep by (apply (clean_avoids [";"]%char); [by_compute|done]).
    by rewrite split_no_sep by (apply (clean_avoids [";"]%char); [by_compute|done]).
  - apply list_elem_of_singleton in Hsep as ->.
    rewrite contains_false.
    + apply split_ws_two; [done|by apply (clean_no_blank [";"]%char)|done
                          |by apply (clean_no_blank [";"]%char)|done].
    + rewrite chars_app. apply Forall_app_2.
      * apply (clean_avoids [";"]%char); [by_compute|done].
      * constructor; [done|]. apply (clean_avoids [";"]%char); [by_compute|done].
Qed.

Lemma documented_candidates sep s :
  sep ∈ [";"; " "]%char → on_board s →
  candidates "white:" (snapshot_text sep s) = white s
  ∧ candidates "black:" (snapshot_text sep s) = black s.
Proof.
  intros Hsep Hs. unfold candidates. rewrite (snapshot_text_parts _ _ Hsep Hs).
  pose proof Hs as [Hw Hb]%Forall_app.
  destruct (documented_token "white:" (white s) ltac:(by_compute) Hw) as (_ & _ & Hws).
  destruct (documented_token "black:" (black s) ltac:(by_compute) Hb) as (_ & _ & Hbs).
  cbv zeta in Hws, Hbs.
  rewrite !last_token_cons. unfold last_token. rewrite !filter_nil. cbn [last].
  unfold is_token. rewrite Hws, Hbs.
  rewrite !startswith_prefix.
  replace (Py.startswith "white:" ("black:" ++ String.concat "," (black s))) with false
    by reflexivity.
  replace (Py.startswith "black:" ("white:" ++ String.concat "," (white s))) with false
    by reflexivity.
  cbn [from_option]. split.
  - apply (token_squares_documented "white"); [by_compute|done].
  - apply (token_squares_documented "black"); [by_compute|done].
Qed.

Lemma sorted_of_sorted l : StronglySorted String.le l → Py.sorted l = l.
Proof.
  intros H. apply (StronglySorted_unique String.le); [apply sorted_StronglySorted|done|].
  apply sorted_Permutation.
Qed.

Lemma documented_formats_read sep s :
  sep ∈ [";"; " "]%char → on_board s →
  _parse_positions (snapshot_text sep s)
  = Some (mkSnapshot (Py.sorted (white s)) (Py.sorted (black s)))
  ∧ (StronglySorted String.le (white s) → StronglySorted String.le (black s) →
     _parse_positions (snapshot_text sep s) = Some s).
Proof.
  intros Hsep Hs.
  assert (_parse_positions (snapshot_text sep s)
          = Some (mkSnapshot (Py.sorted (white s)) (Py.sorted (black s)))) as E.
  { rewrite parse_positions_last.
    destruct (documented_candidates _ _ Hsep Hs) as [-> ->].
    apply Forall_app in Hs as [Hw Hb]. by rewrite !filter_valid. }
  split; [done|]. intros Hw Hb. rewrite E, !sorted_of_sorted by done. by destruct s.
Qed.

(** A snapshot of board squares, sent in either documented format, is read
    back square for square: the parser returns its white and its black
    squares, sorted; a snapshot whose lists are sorted is read back as it
    is. *)
Theorem documented_formats_parse sep s :
  sep ∈ [";"; " "]%char → on_board s →
  _parse_positions (snapshot_text sep s)
  = Some (mkSnapshot (Py.sorted (white s)) (Py.sorted (black s)))
  ∧ (StronglySorted String.le (white s) → StronglySorted String.le (black s) →
     _parse_positions (snapshot_text sep s) = Some s).
Proof. apply documented_formats_read. Qed.

Lemma documented_formats_parse_witness :
  _parse_positions "white:e2,d2;black:e7" = Some (mkSnapshot ["d2"; "e2"] ["e7"])
  ∧ _parse_positions "white:d2,e2 black:e7" = Some (mkSnapshot ["d2"; "e2"] ["e7"]).
Proof.
  split.
  - apply (documented_formats_parse ";" (mkSnapshot ["e2"; "d2"] ["e7"])); by_compute.
  - apply (documented_formats_parse " " (mkSnapshot ["d2"; "e2"] ["e7"]));
      [by_compute|by_compute|by_compute|by_compute].
Defined.

End documented_format.

(** ** The routes *)

Module app.

Section routes.

Context {Board Move : Type}.
Variable initial_board : Board.
Variable from_uci : string → option Move.
Variable is_legal : Board → Move → bool.
Variable push : Board → Move → Board.
Variable is_checkmate : Board → bool.
Variable color_at : Board → nat → option Color.
Variable fen : Board → string.
Variable get_best_move_time : string → option string.

(** What a view returns: [result, 200, {'Content-Type': 'text/plain'}];
    an exception of the method leaves the view. *)
Definition respond (result : outcome string)
  : outcome (string * nat * list (string * string)) :=
  match result with
  | Return result => Return (result, 200%nat, [("Content-Type", "text/plain")])
  | Raised => Raised
  end.

(** [start()], on the global [brain] and the body of the request. *)
Definition start (brain : @ChessBrain Board) (data : string) :=
  let color := Py.strip data in
  let '(brain, result) :=
    start_game initial_board from_uci is_legal push is_checkmate color_at fen
               get_best_move_time brain color in
  (brain, respond result).

(** [move()] *)
Definition move (brain : @ChessBrain Board) (data : string) :=
  let msg := Py.strip data in
  let '(brain, result) :=
    process_move from_uci is_legal push is_checkmate color_at fen
                 get_best_move_time brain msg in
  (brain, respond result).

End routes.

End app.

Section session_formats.

Context {Board Move : Type}.
Variable initial_board : Board.
Variable from_uci : string → option Move.
Variable is_legal : Board → Move → bool.
Variable push : Board → Move → Board.
Variable is_checkmate : Board → bool.
Variable color_at : Board → nat → option Color.
Variable fen : Board → string.
Variable get_best_move_time : string → option string.

Local Abbreviation Brain := (@ChessBrain Board).
Local Abbreviation process :=
  (process_move from_uci is_legal push is_checkmate color_at fen get_best_move_time).
Local Abbreviation start :=
  (start_game initial_board from_uci is_legal push is_checkmate color_at fen
              get_best_move_time).
Local Abbreviation snapshot := (_get_piece_snapshot color_at).

Implicit Types self brain : Brain.

(** The board's own snapshot, sent back in either documented format, is
    read as that snapshot, and an active session drops it: the session is
    as it was and the reply is empty. *)
Theorem own_snapshot_echo_ignored self sep :
  sep ∈ [";"; " "]%char → game_active self = true →
  _parse_positions (snapshot_text sep (snapshot self)) = Some (snapshot self)
  ∧ process self (snapshot_text sep (snapshot self)) = (self, Return EmptyString).
Proof.
  intros Hsep Ha.
  destruct (snapshot_well_formed color_at self) as (_ & Hon & _ & Hsw & Hsb).
  cbv zeta in *.
  assert (_parse_positions (snapshot_text sep (snapshot self)) = Some (snapshot self))
    as Hp by (by apply documented_formats_read).
  split; [done|].
  apply (process_snapshot_path _ _ _ _ _ _ _ _ _ (snapshot self)); [done| |done|by left].
  apply not_true_is_false.
  intros (_ & _ & _ & Hlen)%is_uci_move_coordinate%coordinate_text_plain.
  rewrite (snapshot_text_normal _ _ Hsep Hon) in Hlen.
  unfold snapshot_text in Hlen. simpl in Hlen. lia.
Qed.

(** The routes add nothing to the methods: the answer of a route is the
    answer of its method on the body as it came, under status 200 and as
    plain text; the trimming the routes do is done again by the methods. *)
Theorem routes_add_nothing brain data :
  app.move from_uci is_legal push is_checkmate color_at fen get_best_move_time brain data
  = ((process brain data).1, app.respond (process brain data).2)
  ∧ app.start initial_board from_uci is_legal push is_checkmate color_at fen
              get_best_move_time brain data
    = ((start brain data).1, app.respond (start brain data).2).
Proof.
  destruct (requests_by_normal initial_board from_uci is_legal push is_checkmate
              color_at fen get_best_move_time brain (Py.strip data) data
              (normal_strip data)) as [Hm Hs].
  unfold app.move, app.start. cbv zeta. rewrite Hm, Hs.
  by destruct (process brain data), (start brain data).
Qed.

End session_formats.

(** ** More concrete sessions *)

Module Replays.

Import Chess.

(** The opening session under the other colour, with the flags and the
    stored snapshot of a new object. *)
Definition opening_as_white : Brain := mkBrain initial_board (Some WHITE) true None true.

(** The starting position with the e-pawn moved to e3. *)
Definition shows_e2e3 : string :=
  "white:a1,a2,b1,b2,c1,c2,d1,d2,e1,e3,f1,f2,g1,g2,h1,h2;black:a7,a8,b7,b8,c7,c8,d7,d8,e7,e8,f7,f8,g7,g8,h7,h8".

Lemma requests_read_normalised_witness :
  process_move Sessions.opening " E2E3 " = process_move Sessions.opening "e2e3"
  ∧ start_game Sessions.opening " E2E3 " = start_game Sessions.opening "e2e3".
Proof.
  apply (requests_read_normalised initial_board from_uci is_legal push is_checkmate
           color_at fen engine Sessions.opening " E2E3 " "e2e3").
  vm_compute. reflexivity.
Defined.

Lemma process_move_reads_board_and_activity_witness :
  (process_move Sessions.opening "e2e3").2 = (process_move opening_as_white "e2e3").2
  ∧ same_game (process_move Sessions.opening "e2e3").1
              (process_move opening_as_white "e2e3").1
  ∧ app_color (process_move Sessions.opening "e2e3").1 = app_color Sessions.opening
  ∧ first_move_received (process_move Sessions.opening "e2e3").1
    = first_move_received Sessions.opening.
Proof.
  apply (process_move_reads_board_and_activity from_uci is_legal push is_checkmate
           color_at fen engine Sessions.opening opening_as_white "e2e3").
  split; vm_compute; reflexivity.
Defined.

Lemma returned_move_was_played_witness :
  game_active Sessions.opening = true
  ∧ board (process_move Sessions.opening "e2e3").1
    = push (push (board Sessions.opening) (mkMove 12 20 None)) (mkMove 48 32 None).
Proof.
  destruct (returned_move_was_played from_uci is_legal push is_checkmate color_at fen
              engine Sessions.opening "e2e3" "a7a5")
    as (Ha & mine & theirs & _ & _ & _ & _ & _ & Hb);
    [vm_compute; reflexivity|discriminate..|].
  split; [exact Ha|]. vm_compute. reflexivity.
Defined.

Lemma game_over_replies_witness :
  (process_move Sessions.opening "e2e3").2 = Return "Game Over"
  ↔ game_active Sessions.opening = false.
Proof.
  apply (game_over_replies initial_board from_uci is_legal push is_checkmate color_at
           fen engine Sessions.opening).
  vm_compute. reflexivity.
Defined.

Lemma snapshot_of_move_handled_as_move_witness :
  process_move Sessions.opening "e2e3" = process_move Sessions.opening shows_e2e3.
Proof.
  destruct (snapshot_of_move_handled_as_move from_uci is_legal push is_checkmate
              color_at fen engine Sessions.opening shows_e2e3
              (mkSnapshot
                 ["a1"; "a2"; "b1"; "b2"; "c1"; "c2"; "d1"; "d2"; "e1"; "e3";
                  "f1"; "f2"; "g1"; "g2"; "h1"; "h2"]
                 ["a7"; "a8"; "b7"; "b8"; "c7"; "c8"; "d7"; "d8"; "e7"; "e8";
                  "f7"; "f8"; "g7"; "g8"; "h7"; "h8"])
              WHITE "e2" "e3" (mkMove 12 20 None)) as (_ & _ & H).
  - vm_compute. reflexivity.
  - vm_compute. reflexivity.
  - vm_compute. reflexivity.
  - split; by_compute.
  - by_compute.
  - by_compute.
  - left. by_compute.
  - by_compute.
  - vm_compute. reflexivity.
  - vm_compute. reflexivity.
  - apply (H "a7a5"). vm_compute. reflexivity.
Defined.

Lemma own_snapshot_echo_ignored_witness :
  process_move Sessions.opening
    (snapshot_text ";" (_get_piece_snapshot Sessions.opening))
  = (Sessions.opening, Return EmptyString).
Proof.
  apply (own_snapshot_echo_ignored from_uci is_legal push is_checkmate color_at fen
           engine Sessions.opening ";"); [by_compute|vm_compute; reflexivity].
Defined.

Lemma activity_follows_checkmate_witness :
  never_mated is_checkmate (process_move Sessions.opening "e2e3").1.
Proof.
  assert (never_mated is_checkmate Sessions.opening) as H
    by (intros _; vm_compute; reflexivity).
  exact (proj1 (activity_follows_checkmate initial_board from_uci is_legal push
                  is_checkmate color_at fen engine Sessions.opening) "e2e3" H).
Defined.

Lemma start_game_discards_session_witness :
  start_game Sessions.after_e2e3 " White " = start_game (new_brain initial_board) " White ".
Proof.
  assert (normal " White " ∈ ["white"; "black"]) as H by by_compute.
  exact (proj1 (proj1 (start_game_discards_session initial_board from_uci is_legal push
                         is_checkmate color_at fen engine Sessions.after_e2e3 " White ")
                 H)).
Defined.

End Replays.
